(** * SortableTable: a shallow embedding of [src/sortabletable/sortabletable.tsx]

    The component is a React class with three methods ([clickSort],
    [expansionControl], [renderRow]) and [render].  Markup is embedded as a
    first-order tree, caller callbacks as pure functions whose invocations are
    logged in a trace, and event handlers as data that [fire] interprets. *)

From Stdlib Require Import ZArith Ascii String Lia.
From stdpp Require Import base option list.

Set Warnings "-register-all".

Open Scope string_scope.
Open Scope Z_scope.
Open Scope list_scope.

(** ** JavaScript values *)

(** A JS [number].  Row counts and row indices are integers; the only other
    number the component ever holds is [NaN] (the initial [activeIndex]).
    For the strict equality the component uses, what matters about a number
    is whether it is [NaN]. *)
Inductive number : Type :=
  | NaN
  | Num (z : Z).

(** [a === b] on numbers: [NaN] is equal to nothing, itself included. *)
Definition number_strict_eq (a b : number) : bool :=
  match a, b with
  | Num x, Num y => x =? y
  | _, _ => false
  end.

(** A value of type [any], as a column's [sortKey] is declared.  Objects,
    functions and symbols are references compared by identity. *)
Inductive value : Type :=
  | VUndefined
  | VNull
  | VBool (b : bool)
  | VNumber (n : number)
  | VString (s : string)
  | VRef (addr : nat).

(** [a === b]. *)
Definition strict_eq (a b : value) : bool :=
  match a, b with
  | VUndefined, VUndefined => true
  | VNull, VNull => true
  | VBool x, VBool y => Bool.eqb x y
  | VNumber x, VNumber y => number_strict_eq x y
  | VString x, VString y => String.eqb x y
  | VRef x, VRef y => Nat.eqb x y
  | _, _ => false
  end.

(** lodash [isUndefined]. *)
Definition isUndefined (v : value) : bool :=
  match v with
  | VUndefined => true
  | _ => false
  end.

(** Truthiness of an optional boolean prop ([loading?], [empty?], ...). *)
Definition truthy (b : option bool) : bool := default false b.

(** Truthiness of an optional string prop ([loadingLabel?]). *)
Definition truthy_string (s : option string) : bool :=
  match s with
  | Some s => negb (String.eqb s "")
  | None => false
  end.

(** ** Sort settings and the callback trace *)

Record SortSetting : Type := mkSortSetting {
  sortKey : value;
  ascending : bool;
}.

(** Every call the component makes into caller-supplied code.  The two
    [void] callbacks ([onChangeSortSetting], [onChangeExpansion]) are known
    to the model only through these entries. *)
Inductive call : Type :=
  | OnChangeSortSetting (ss : SortSetting)
  | OnChangeExpansion (rowIndex : number) (expanded : bool)
  | RowClass (rowIndex : number)
  | RowIsExpanded (rowIndex : number)
  | ExpandedContent (rowIndex : number)
  | Cell (colIndex : nat) (rowIndex : number).

(** A computation that returns a value and logs the calls it made, in
    order. *)
Definition Eff (A : Type) : Type := (A * list call)%type.

#[global] Instance Eff_ret : MRet Eff := fun A a => (a, []).
#[global] Instance Eff_bind : MBind Eff := fun A B k m =>
  let r := k m.1 in (r.1, m.2 ++ r.2).
#[global] Instance Eff_fmap : FMap Eff := fun A B f m => (f m.1, m.2).

(** Call [c], which returns [result]. *)
Definition invoke {A} (c : call) (result : A) : Eff A := (result, [c]).

(** The value and the trace of a computation. *)
Definition result {A} (m : Eff A) : A := m.1.
Definition calls {A} (m : Eff A) : list call := m.2.

(** The [cell] and [expandedContent] calls of a trace, in order. *)
Definition cell_call (c : call) : option (nat * number) :=
  match c with
  | Cell colIndex rowIndex => Some (colIndex, rowIndex)
  | _ => None
  end.

Definition expanded_content_call (c : call) : option number :=
  match c with
  | ExpandedContent rowIndex => Some rowIndex
  | _ => None
  end.

Definition cell_calls (trace : list call) : list (nat * number) :=
  omap cell_call trace.

Definition expanded_content_calls (trace : list call) : list number :=
  omap expanded_content_call trace.

(** [map(xs, (x, i) => f(i, x))] where [f] makes calls: left to right. *)
Fixpoint imapM {A B} (f : nat -> A -> Eff B) (l : list A) : Eff (list B) :=
  match l with
  | [] => mret []
  | x :: l' =>
      y ← f 0%nat x;
      ys ← imapM (fun i => f (S i)) l';
      mret (y :: ys)
  end.

(** lodash [times(n, iteratee)].  [n] is converted with [toInteger] ([NaN]
    becomes 0).  Below 1 and above [MAX_SAFE_INTEGER] the result is the empty
    array and the iteratee is not called.  Otherwise [baseTimes] calls the
    iteratee with 0, 1, ..., length-1 and collects the results, where
    [length] is [n] capped at [MAX_ARRAY_LENGTH]; the loop
    [while (++index < n) iteratee(index)] that follows, with [index] started
    at [MAX_ARRAY_LENGTH] and [n] lowered by [MAX_ARRAY_LENGTH], calls the
    iteratee some more and drops what it returns. *)
Definition MAX_SAFE_INTEGER : Z := 9007199254740991.
Definition MAX_ARRAY_LENGTH : Z := 4294967295.

Definition toInteger (n : number) : Z :=
  match n with
  | NaN => 0
  | Num z => z
  end.

Definition times {B} (n : number) (iteratee : number -> Eff B) : Eff (list B) :=
  let n := toInteger n in
  if (n <? 1) || (MAX_SAFE_INTEGER <? n) then mret []
  else
    let index := MAX_ARRAY_LENGTH in
    let length := Z.min n MAX_ARRAY_LENGTH in
    let n := n - MAX_ARRAY_LENGTH in
    built ← mapM (fun index => iteratee (Num index)) (seqZ 0 length);
    _ ← mapM (fun index => iteratee (Num index))
             (seqZ (index + 1) (n - (index + 1)));
    mret built.

(** ** Class names *)

(** An argument of [cx(...)]: a string, [undefined], or an object
    [{ name: cond }].  [cx] is [classNames.bind(styles)]; the style sheet's
    renaming of each class is left out, so a class list holds the names as the
    component wrote them. *)
Inductive classArg : Type :=
  | CStr (s : string)
  | CUndefined
  | CObj (name : string) (cond : bool).

(** [classnames]: falsy arguments are dropped, an object contributes the keys
    whose values are truthy. *)
Definition cx_arg (a : classArg) : list string :=
  match a with
  | CStr s => if String.eqb s "" then [] else [s]
  | CUndefined => []
  | CObj name cond => if cond then [name] else []
  end.

Definition cx (args : list classArg) : list string :=
  concat (map cx_arg args).

(** The names in a [class] attribute are its pieces between ASCII
    whitespace (space, tab, line feed, form feed, carriage return). *)
Definition is_space (a : Ascii.ascii) : bool :=
  (Ascii.eqb a " " || Ascii.eqb a "009" || Ascii.eqb a "010"
   || Ascii.eqb a "012" || Ascii.eqb a "013")%char.

Definition token (current : string) : list string :=
  if String.eqb current "" then [] else [current].

Fixpoint class_tokens_from (current : string) (s : string) : list string :=
  match s with
  | EmptyString => token current
  | String a rest =>
      if is_space a then token current ++ class_tokens_from "" rest
      else class_tokens_from (String.append current (String a "")) rest
  end.

Definition class_tokens (s : string) : list string := class_tokens_from "" s.

Definition optional_class (c : option string) : classArg :=
  match c with
  | Some s => CStr s
  | None => CUndefined
  end.

(** ** Markup *)

Inductive textAlign : Type := AlignLeft | AlignRight | AlignCenter.

(** The two closures the component installs as [onClick]:
    - on a sortable header, [() => { this.clickSort(c.sortKey) }];
    - on a body row, [() => { if (onClickExpand) onClickExpand(rowIndex, !expanded) }],
      which captured whether [onClickExpand] is defined, the row index and
      [expanded] ([undefined] without an expandable configuration). *)
Inductive handler : Type :=
  | HeaderClick (clickedSortKey : value)
  | RowClick (onClickExpand : bool) (rowIndex : number) (expanded : option bool).

(** The attributes the component sets on its elements.  [style] is the
    [textAlign] of [style={{ textAlign }}]. *)
Record attrs : Type := mkAttrs {
  className : option (list string);
  key : option number;
  onClick : option handler;
  colSpan : option nat;
  style : option textAlign;
}.

Definition no_attrs : attrs :=
  {| className := None; key := None; onClick := None; colSpan := None;
     style := None |}.

Definition with_class (cls : list string) : attrs :=
  {| className := Some cls; key := None; onClick := None; colSpan := None;
     style := None |}.

Section SortableTable.

(** The props of the external [Empty] component ([../empty]). *)
Context {EmptyProps : Type}.

(** A [React.ReactNode].  [NNothing] stands for the children React renders as
    nothing ([null], [undefined], [false], the empty string). *)
Inductive node : Type :=
  | NNothing
  | NText (s : string)
  | NArray (items : list node)
  | NElem (tag : string) (a : attrs) (children : list node)
  | NEmpty (props : option EmptyProps)
  | NSpin (cls : list string) (indicator : node)
  | NIconSpinner.

(** A column's [sortKey] and [className] are [columnSortKey] and
    [columnClassName] here, apart from the sort setting's [sortKey] and the
    elements' [className].  An absent [sortKey] reads as [undefined]. *)
Record SortableColumn : Type := mkColumn {
  title : node;
  cell : number -> node;
  rollup : option node;
  columnSortKey : value;
  columnClassName : option string;
  titleAlign : option textAlign;
}.

(** [onChangeExpansion] is a required [void] callback: its calls appear in the
    trace as [OnChangeExpansion]. *)
Record ExpandableConfig : Type := mkExpandable {
  rowIsExpanded : number -> bool;
  expandedContent : number -> node;
}.

(** [onChangeSortSetting] is a [void] callback with a no-op default: its calls
    appear in the trace as [OnChangeSortSetting].  The table's [className] is
    [tableClassName]; an absent [renderNoResult] is [NNothing]. *)
Record TableProps : Type := mkProps {
  count : number;
  columns : list SortableColumn;
  sortSetting : option SortSetting;
  tableClassName : option string;
  rowClass : option (number -> string);
  expandableConfig : option ExpandableConfig;
  firstCellBordered : option bool;
  renderNoResult : node;
  loading : option bool;
  loadingLabel : option string;
  empty : option bool;
  emptyProps : option EmptyProps;
}.

(** [defaultProps]. *)
Definition defaultSortSetting : SortSetting :=
  {| sortKey := VNull; ascending := false |}.

Definition defaultRowClass : number -> string := fun _rowIndex => "".

Definition props_sortSetting (p : TableProps) : SortSetting :=
  default defaultSortSetting (sortSetting p).

Definition props_rowClass (p : TableProps) : number -> string :=
  default defaultRowClass (rowClass p).

(** The component's [state]. *)
Record State : Type := mkState {
  visible : bool;
  activeIndex : number;
}.

Definition initialState : State :=
  {| visible := false; activeIndex := NaN |}.

(** ** Methods *)

Definition clickSort (p : TableProps) (clickedSortKey : value) : Eff unit :=
  let sortSetting := props_sortSetting p in
  let '(clickedSortKey, ascending) :=
    if strict_eq (sortKey sortSetting) clickedSortKey then
      if negb (ascending sortSetting) then (clickedSortKey, true)
      else (VNull, false)
    else (clickedSortKey, false) in
  invoke (OnChangeSortSetting
            {| sortKey := clickedSortKey; ascending := ascending |}) tt.

Definition expansionControl (expanded : bool) : node :=
  let content := if expanded then "▼" else "▶" in
  NElem "td"
    (with_class (cx [CStr "sort-table__cell";
                     CStr "sort-table__cell__expansion-control"]))
    [NElem "div" no_attrs [NText content]].

Definition is_first (colIndex : nat) : bool := Nat.eqb colIndex 0.

Definition renderRow (st : State) (p : TableProps) (rowIndex : number)
  : Eff (list node) :=
  let columns := columns p in
  let expandableConfig := expandableConfig p in
  let firstCellBordered := firstCellBordered p in
  rc ← invoke (RowClass rowIndex) (props_rowClass p rowIndex);
  let classes :=
    cx [CStr "sort-table__row";
        CStr "sort-table__row--body";
        CStr (if number_strict_eq (activeIndex st) rowIndex
              then "drawer-active" else "");
        CStr rc;
        CObj "sort-table__row--expandable" (bool_decide (is_Some expandableConfig))] in
  expanded ←
    match expandableConfig with
    | Some cfg =>
        b ← invoke (RowIsExpanded rowIndex) (rowIsExpanded cfg rowIndex);
        mret (Some b)
    | None => mret None
    end;
  let onClickExpand := bool_decide (is_Some expandableConfig) in
  cells ← imapM (fun colIndex c =>
      content ← invoke (Cell colIndex rowIndex) (cell c rowIndex);
      mret (NElem "td"
              {| className :=
                   Some (cx [CStr "sort-table__cell";
                             CObj "sort-table__cell--header"
                               (truthy firstCellBordered && is_first colIndex);
                             optional_class (columnClassName c)]);
                 key := Some (Num (Z.of_nat colIndex));
                 onClick := None; colSpan := None; style := None |}
              [content]))
    columns;
  let output :=
    [NElem "tr"
       {| className := Some classes;
          key := Some rowIndex;
          onClick := Some (RowClick onClickExpand rowIndex expanded);
          colSpan := None; style := None |}
       [match expandableConfig with
        | Some _ => expansionControl (truthy expanded)
        | None => NNothing
        end;
        NArray cells]] in
  match expandableConfig with
  | Some cfg =>
      again ← invoke (RowIsExpanded rowIndex) (rowIsExpanded cfg rowIndex);
      if again : bool then
        let expandedAreaClasses :=
          cx [CStr "sort-table__row";
              CStr "sort-table__row--body";
              CStr "sort-table__row--expanded-area"] in
        content ← invoke (ExpandedContent rowIndex) (expandedContent cfg rowIndex);
        mret (output ++
              [NElem "tr"
                 {| className := Some classes;
                    key := Some (Num (Z.of_nat (length output) + 1));
                    onClick := None; colSpan := None; style := None |}
                 [];
               NElem "tr"
                 {| className := Some expandedAreaClasses;
                    key := Some (Num (Z.of_nat (length output) + 2));
                    onClick := None; colSpan := None; style := None |}
                 [NElem "td" no_attrs [];
                  NElem "td"
                    {| className := Some (cx [CStr "sort-table__cell"]);
                       key := None; onClick := None;
                       colSpan := Some (length columns); style := None |}
                    [content]]])
      else mret output
  | None => mret output
  end.

(** The callback [render] maps over the columns to build the header row. *)
Definition headerCell (p : TableProps) (colIndex : nat) (c : SortableColumn)
  : node :=
  let sortSetting := props_sortSetting p in
  let sortable := negb (isUndefined (columnSortKey c)) in
  let classes :=
    cx [CStr "sort-table__cell"]
    ++ (if sortable then
          cx [CStr "sort-table__cell--sortable"]
          ++ (if strict_eq (columnSortKey c) (sortKey sortSetting) then
                if ascending sortSetting
                then cx [CStr "sort-table__cell--ascending"]
                else cx [CStr "sort-table__cell--descending"]
              else [])
        else [])
    ++ (if truthy (firstCellBordered p) && is_first colIndex
        then cx [CStr "sort-table__cell--header"] else []) in
  NElem "th"
    {| className := Some classes;
       key := Some (Num (Z.of_nat colIndex));
       onClick := if sortable then Some (HeaderClick (columnSortKey c)) else None;
       colSpan := None;
       style := titleAlign c |}
    [title c;
     if sortable
     then NElem "span" (with_class (cx [CStr "sortable__actions"])) []
     else NNothing].

Definition render (st : State) (p : TableProps) : Eff node :=
  if truthy (empty p) then mret (NEmpty (emptyProps p))
  else
    let thead :=
      NElem "thead" no_attrs
        [NElem "tr"
           (with_class (cx [CStr "sort-table__row"; CStr "sort-table__row--header"]))
           [match expandableConfig p with
            | Some _ => NElem "th" (with_class (cx [CStr "sort-table__cell"])) []
            | None => NNothing
            end;
            NArray (imap (headerCell p) (columns p))]] in
    body ←
      (if negb (truthy (loading p)) then
         rows ← times (count p) (fun rowIndex =>
                   output ← renderRow st p rowIndex;
                   mret (NArray output));
         mret (NArray rows)
       else mret NNothing);
    mret
      (NElem "div" (with_class (cx [CStr "cl-table-wrapper"]))
         [NElem "table"
            (with_class (cx [CStr "sort-table"; optional_class (tableClassName p)]))
            [thead; NElem "tbody" no_attrs [body]];
          if truthy (loading p) then
            NElem "div" (with_class (cx [CStr "table__loading"]))
              [NSpin (cx [CStr "table__loading--spin"]) NIconSpinner;
               if truthy_string (loadingLabel p) then
                 NElem "span" (with_class (cx [CStr "table__loading--label"]))
                   [NText (default "" (loadingLabel p))]
               else NNothing]
          else NNothing;
          if number_strict_eq (count p) (Num 0) then
            NElem "div" (with_class (cx [CStr "table__no-results"]))
              [renderNoResult p]
          else NNothing]).

(** ** Event handlers and the component's life *)

(** The parent's side of a sort click: it stores the setting it is handed and
    passes it back as the [sortSetting] prop. *)
Definition with_sortSetting (p : TableProps) (ss : SortSetting) : TableProps :=
  {| count := count p; columns := columns p; sortSetting := Some ss;
     tableClassName := tableClassName p; rowClass := rowClass p;
     expandableConfig := expandableConfig p;
     firstCellBordered := firstCellBordered p;
     renderNoResult := renderNoResult p; loading := loading p;
     loadingLabel := loadingLabel p; empty := empty p;
     emptyProps := emptyProps p |}.

Definition feed_back (p : TableProps) (c : call) : TableProps :=
  match c with
  | OnChangeSortSetting ss => with_sortSetting p ss
  | _ => p
  end.

(** One click on the header of key [K], the emitted setting fed back in. *)
Definition click_and_feed (K : value) (p : TableProps) : TableProps :=
  foldl feed_back p (calls (clickSort p K)).

(** Running an installed [onClick] closure against the props of the moment. *)
Definition fire (p : TableProps) (h : handler) : Eff unit :=
  match h with
  | HeaderClick clickedSortKey => clickSort p clickedSortKey
  | RowClick onClickExpand rowIndex expanded =>
      if onClickExpand
      then invoke (OnChangeExpansion rowIndex (negb (truthy expanded))) tt
      else mret tt
  end.

(** What a mounted component does: it is rendered with some props, or one of
    its handlers runs.  No method assigns [this.state] or calls [setState], so
    either leaves the state as it was. *)
Inductive action : Type :=
  | DoRender (p : TableProps)
  | DoFire (p : TableProps) (h : handler).

Definition after (st : State) (a : action) : State :=
  match a with
  | DoRender _ => st
  | DoFire _ _ => st
  end.

(** The states a component can be in: [initialState] followed by any
    actions. *)
Definition reachable (st : State) : Prop :=
  exists acts : list action, st = foldl after initialState acts.

(** ** Reading the markup *)

(** What React puts in the page for a child: arrays are spliced in and
    nothing-children vanish. *)
Fixpoint flatten (n : node) : list node :=
  match n with
  | NNothing => []
  | NArray items => concat (map flatten items)
  | _ => [n]
  end.

Definition rendered_children (n : node) : list node :=
  match n with
  | NElem _ _ children => concat (map flatten children)
  | _ => []
  end.

Definition children_of (n : node) : list node :=
  match n with
  | NElem _ _ children => children
  | _ => []
  end.

Definition attrs_of (n : node) : attrs :=
  match n with
  | NElem _ a _ => a
  | _ => no_attrs
  end.

Definition has_tag (t : string) (n : node) : bool :=
  match n with
  | NElem t' _ _ => String.eqb t t'
  | _ => false
  end.

(** An element carries a class when the class is one of the names in its
    [class] attribute: [classnames] joins its pieces with spaces, and a piece
    from the caller may itself hold several names. *)
Definition has_class (c : string) (n : node) : bool :=
  match className (attrs_of n) with
  | Some cls => existsb (String.eqb c) (concat (map class_tokens cls))
  | None => false
  end.

Definition elements (t : string) (n : node) : list node :=
  List.filter (has_tag t) (rendered_children n).

Definition descend (t : string) (parents : list node) : list node :=
  concat (map (elements t) parents).

(** The rows of the table body and the cells of the header row. *)
Definition body_rows (markup : node) : list node :=
  descend "tr" (descend "tbody" (elements "table" markup)).

Definition header_cells (markup : node) : list node :=
  descend "th" (descend "tr" (descend "thead" (elements "table" markup))).

(** A data row is a body row wired to the row click closure; it answers with
    the row index it was rendered for. *)
Definition data_row_index (row : node) : option number :=
  match onClick (attrs_of row) with
  | Some (RowClick _ rowIndex _) => Some rowIndex
  | _ => None
  end.

Definition data_rows (markup : node) : list number :=
  omap data_row_index (body_rows markup).

(** The loading indicator and the "no results" placeholder sit beside the
    table in the wrapper. *)
Definition is_div_of_class (c : string) (n : node) : bool :=
  has_tag "div" n && has_class c n.

Definition shows_loading (markup : node) : bool :=
  existsb (is_div_of_class "table__loading") (rendered_children markup).

Definition shows_no_results (markup : node) : bool :=
  existsb (is_div_of_class "table__no-results") (rendered_children markup).

(** Activating an element: its [onClick], if it has one, runs. *)
Definition activate (p : TableProps) (n : node) : Eff unit :=
  match onClick (attrs_of n) with
  | Some h => fire p h
  | None => mret tt
  end.

(** The [key]s React reads off the items of one array. *)
Definition keys_of (items : list node) : list (option number) :=
  map (fun item => key (attrs_of item)) items.

(** The columns a cell takes.  HTML reads a [colspan] of 0 as 1 and caps it
    at 1000; a cell without [colSpan] takes one column.  A row's width is the
    sum over its cells. *)
Definition html_colspan (n : nat) : nat :=
  match n with
  | O => 1%nat
  | _ => Nat.min n 1000
  end.

Definition cell_span (c : node) : nat :=
  match colSpan (attrs_of c) with
  | Some n => html_colspan n
  | None => 1%nat
  end.

Definition row_width (row : node) : nat :=
  sum_list (map cell_span (rendered_children row)).

(** The label shown beside the spinner, if one is. *)
Definition label_text (n : node) : option string :=
  match children_of n with
  | [NText s] => Some s
  | _ => None
  end.

Definition loading_label (markup : node) : list string :=
  omap label_text
    (descend "span"
       (List.filter (is_div_of_class "table__loading")
          (rendered_children markup))).

End SortableTable.

(** The types name the [Empty] view's props; the rest infers them. *)
Arguments node EmptyProps : clear implicits.
Arguments SortableColumn EmptyProps : clear implicits.
Arguments ExpandableConfig EmptyProps : clear implicits.
Arguments TableProps EmptyProps : clear implicits.
Arguments action EmptyProps : clear implicits.
Arguments reachable EmptyProps st : clear implicits.

(** ** Sample tables

    The scenario of the specification: a "Name" column without a sort key, an
    "Age" column sorted under the key ["age"], three rows.  The [Empty] view
    takes a title here. *)
Module Sample.

Definition names (rowIndex : number) : node string :=
  match rowIndex with
  | Num 0 => NText "Ada"
  | Num 1 => NText "Grace"
  | Num 2 => NText "Edsger"
  | _ => NNothing
  end.

Definition ages (rowIndex : number) : node string :=
  match rowIndex with
  | Num 0 => NText "36"
  | Num 1 => NText "85"
  | Num 2 => NText "72"
  | _ => NNothing
  end.

Definition nameColumn : SortableColumn string :=
  {| title := NText "Name"; cell := names; rollup := None;
     columnSortKey := VUndefined; columnClassName := None;
     titleAlign := None |}.

Definition ageColumn : SortableColumn string :=
  {| title := NText "Age"; cell := ages; rollup := None;
     columnSortKey := VString "age"; columnClassName := Some "numeric";
     titleAlign := Some AlignRight |}.

Definition people : TableProps string :=
  {| count := Num 3; columns := [nameColumn; ageColumn];
     sortSetting := Some {| sortKey := VNull; ascending := false |};
     tableClassName := None; rowClass := None; expandableConfig := None;
     firstCellBordered := None; renderNoResult := NText "No people";
     loading := None; loadingLabel := None; empty := None;
     emptyProps := None |}.

(** Row 1 is expanded. *)
Definition details : ExpandableConfig string :=
  {| rowIsExpanded := fun rowIndex => number_strict_eq rowIndex (Num 1);
     expandedContent := fun _ => NText "details" |}.

Definition set_expandable (cfg : ExpandableConfig string) (p : TableProps string)
  : TableProps string :=
  {| count := count p; columns := columns p; sortSetting := sortSetting p;
     tableClassName := tableClassName p; rowClass := rowClass p;
     expandableConfig := Some cfg;
     firstCellBordered := firstCellBordered p;
     renderNoResult := renderNoResult p; loading := loading p;
     loadingLabel := loadingLabel p; empty := empty p;
     emptyProps := emptyProps p |}.

Definition set_count (n : number) (p : TableProps string) : TableProps string :=
  {| count := n; columns := columns p; sortSetting := sortSetting p;
     tableClassName := tableClassName p; rowClass := rowClass p;
     expandableConfig := expandableConfig p;
     firstCellBordered := firstCellBordered p;
     renderNoResult := renderNoResult p; loading := loading p;
     loadingLabel := loadingLabel p; empty := empty p;
     emptyProps := emptyProps p |}.

Definition set_loading (b : bool) (p : TableProps string) : TableProps string :=
  {| count := count p; columns := columns p; sortSetting := sortSetting p;
     tableClassName := tableClassName p; rowClass := rowClass p;
     expandableConfig := expandableConfig p;
     firstCellBordered := firstCellBordered p;
     renderNoResult := renderNoResult p; loading := Some b;
     loadingLabel := Some "Loading people"; empty := empty p;
     emptyProps := emptyProps p |}.

Definition set_empty (title : string) (p : TableProps string) : TableProps string :=
  {| count := count p; columns := columns p; sortSetting := sortSetting p;
     tableClassName := tableClassName p; rowClass := rowClass p;
     expandableConfig := expandableConfig p;
     firstCellBordered := firstCellBordered p;
     renderNoResult := renderNoResult p; loading := loading p;
     loadingLabel := loadingLabel p; empty := Some true;
     emptyProps := Some title |}.

Definition set_rowClass (f : number -> string) (p : TableProps string)
  : TableProps string :=
  {| count := count p; columns := columns p; sortSetting := sortSetting p;
     tableClassName := tableClassName p; rowClass := Some f;
     expandableConfig := expandableConfig p;
     firstCellBordered := firstCellBordered p;
     renderNoResult := renderNoResult p; loading := loading p;
     loadingLabel := loadingLabel p; empty := empty p;
     emptyProps := emptyProps p |}.

Definition expandablePeople : TableProps string := set_expandable details people.

(** Rows 1 and 2 are expanded. *)
Definition moreDetails : ExpandableConfig string :=
  {| rowIsExpanded := fun rowIndex =>
       number_strict_eq rowIndex (Num 1) || number_strict_eq rowIndex (Num 2);
     expandedContent := fun _ => NText "details" |}.

(** A column keyed by [null] and one keyed by [NaN]. *)
Definition nullColumn : SortableColumn string :=
  {| title := NText "Null"; cell := names; rollup := None;
     columnSortKey := VNull; columnClassName := None; titleAlign := None |}.

Definition nanColumn : SortableColumn string :=
  {| title := NText "NaN"; cell := names; rollup := None;
     columnSortKey := VNumber NaN; columnClassName := None;
     titleAlign := None |}.

End Sample.

(** ** Properties *)

(** *** The trace monad *)

Lemma result_bind {A B} (m : Eff A) (k : A -> Eff B) :
  result (m ≫= k) = result (k (result m)).
Proof. reflexivity. Qed.

Lemma calls_bind {A B} (m : Eff A) (k : A -> Eff B) :
  calls (m ≫= k) = calls m ++ calls (k (result m)).
Proof. reflexivity. Qed.

Section EffFacts.

Context {A B : Type}.

Lemma result_imapM (f : nat -> A -> Eff B) (l : list A) :
  result (imapM f l) = imap (fun i x => result (f i x)) l.
Proof.
  revert f. induction l as [|x l IH]; intros f; [reflexivity|].
  cbn [imapM]. rewrite !result_bind, IH. reflexivity.
Qed.

Lemma result_mapM (f : A -> Eff B) (l : list A) :
  result (mapM f l) = map (fun x => result (f x)) l.
Proof.
  induction l as [|x l IH]; [reflexivity|].
  cbn [mapM]. rewrite !result_bind, IH. reflexivity.
Qed.

Lemma calls_mapM (f : A -> Eff B) (l : list A) :
  calls (mapM f l) = concat (map (fun x => calls (f x)) l).
Proof.
  induction l as [|x l IH]; [reflexivity|].
  cbn [mapM]. rewrite !calls_bind, IH. cbn. rewrite app_nil_r. reflexivity.
Qed.

End EffFacts.

(** Up to [MAX_ARRAY_LENGTH], [times] builds one result per index below the
    count, none for a count below one, and calls the iteratee for nothing
    else. *)
Lemma result_times {B} (n : number) (iteratee : number -> Eff B) :
  toInteger n <= MAX_ARRAY_LENGTH ->
  result (times n iteratee)
  = map (fun index => result (iteratee (Num index))) (seqZ 0 (toInteger n)).
Proof.
  intros Hmax. unfold times.
  destruct (Z.ltb_spec (toInteger n) 1) as [Hlt|Hge]; cbn [orb].
  - rewrite seqZ_nil by lia. reflexivity.
  - destruct (Z.ltb_spec MAX_SAFE_INTEGER (toInteger n)) as [Hbig|_];
      [unfold MAX_SAFE_INTEGER, MAX_ARRAY_LENGTH in *; lia|].
    cbv zeta. rewrite Z.min_l by assumption.
    rewrite !result_bind. apply result_mapM.
Qed.

Lemma calls_times {B} (n : number) (iteratee : number -> Eff B) :
  toInteger n <= MAX_ARRAY_LENGTH ->
  calls (times n iteratee)
  = concat (map (fun index => calls (iteratee (Num index)))
                (seqZ 0 (toInteger n))).
Proof.
  intros Hmax. unfold times.
  destruct (Z.ltb_spec (toInteger n) 1) as [Hlt|Hge]; cbn [orb].
  - rewrite seqZ_nil by lia. reflexivity.
  - destruct (Z.ltb_spec MAX_SAFE_INTEGER (toInteger n)) as [Hbig|_];
      [unfold MAX_SAFE_INTEGER, MAX_ARRAY_LENGTH in *; lia|].
    cbv zeta. rewrite Z.min_l by assumption.
    rewrite (seqZ_nil (MAX_ARRAY_LENGTH + 1)) by lia.
    rewrite !calls_bind, calls_mapM. cbn [mapM calls mret Eff_ret snd].
    rewrite !app_nil_r. reflexivity.
Qed.

(** Collecting over one list and then iterating over another returns what
    was collected. *)
Lemma result_collect {B} (g : Z -> Eff B) (l1 l2 : list Z) :
  result (built ← mapM g l1; _ ← mapM g l2; mret built)
  = map (fun index => result (g index)) l1.
Proof. rewrite !result_bind. apply result_mapM. Qed.

(** Whatever the count, what [times] returns are results of the iteratee. *)
Lemma result_times_indices {B} (n : number) (iteratee : number -> Eff B) :
  exists indices : list Z,
    result (times n iteratee)
    = map (fun index => result (iteratee (Num index))) indices
    /\ (toInteger n <= MAX_ARRAY_LENGTH -> indices = seqZ 0 (toInteger n))
    /\ (MAX_ARRAY_LENGTH < toInteger n <= MAX_SAFE_INTEGER ->
        indices = seqZ 0 MAX_ARRAY_LENGTH).
Proof.
  destruct (Z.le_gt_cases (toInteger n) MAX_ARRAY_LENGTH) as [Hmax|Hmax].
  - exists (seqZ 0 (toInteger n)).
    split; [|split; [intros _; reflexivity|intros [Hgt _]; lia]].
    apply result_times. exact Hmax.
  - unfold times.
    destruct (Z.ltb_spec (toInteger n) 1) as [Hlt|_];
      [unfold MAX_ARRAY_LENGTH in Hmax; lia|].
    destruct (Z.ltb_spec MAX_SAFE_INTEGER (toInteger n)) as [Hbig|Hsafe];
      cbn [orb].
    + exists []. split; [reflexivity|]. split; [intros Hle|intros [_ Hle]]; lia.
    + cbv zeta. exists (seqZ 0 MAX_ARRAY_LENGTH).
      split; [|split; [intros Hle; lia|intros _; reflexivity]].
      rewrite Z.min_r by lia.
      apply (result_collect (fun index => iteratee (Num index))).
Qed.

Section Properties.

Context {EmptyProps : Type}.

Implicit Types (p : TableProps EmptyProps) (st : State) (K : value).
Implicit Types (rowIndex : number) (cfg : ExpandableConfig EmptyProps).

(** *** Sorting clicks *)

(** Every value but [NaN] is strictly equal to itself. *)
Lemma strict_eq_refl (a : value) :
  a <> VNumber NaN -> strict_eq a a = true.
Proof.
  destruct a as [| |x|[|x]|x|x]; cbn; intros H; try reflexivity.
  - destruct x; reflexivity.
  - congruence.
  - apply Z.eqb_refl.
  - apply String.eqb_refl.
  - apply Nat.eqb_refl.
Qed.

(** C1.  [clickSort(K)] calls [onChangeSortSetting] exactly once, and calls
    nothing else.  With "equals" read as the source's [===] on the current
    [sortKey] and [K]: a different key starts a descending sort on [K]; the
    same key, currently descending, turns to ascending; the same key,
    currently ascending, clears the sort. *)
Theorem clickSort_tristate p K :
  let current := props_sortSetting p in
  (strict_eq (sortKey current) K = false ->
   calls (clickSort p K)
   = [OnChangeSortSetting {| sortKey := K; ascending := false |}])
  /\ (strict_eq (sortKey current) K = true -> ascending current = false ->
      calls (clickSort p K)
      = [OnChangeSortSetting {| sortKey := K; ascending := true |}])
  /\ (strict_eq (sortKey current) K = true -> ascending current = true ->
      calls (clickSort p K)
      = [OnChangeSortSetting {| sortKey := VNull; ascending := false |}]).
Proof.
  intros current. unfold clickSort. fold current.
  repeat split; intros Heq; try intros Hasc; rewrite Heq; try rewrite Hasc;
    reflexivity.
Qed.

(** C9 (as amended).  For a key [K] that is strictly equal to itself (any
    value but [NaN]) and a current setting on another key, three clicks on
    [K], each emitted setting fed back in, emit descending on [K], ascending
    on [K], and the cleared setting, in that order. *)
Theorem three_clicks_cycle p K :
  strict_eq K K = true ->
  strict_eq (sortKey (props_sortSetting p)) K = false ->
  let p1 := click_and_feed K p in
  let p2 := click_and_feed K p1 in
  let p3 := click_and_feed K p2 in
  (calls (clickSort p K)
   = [OnChangeSortSetting {| sortKey := K; ascending := false |}]
   /\ props_sortSetting p1 = {| sortKey := K; ascending := false |})
  /\ (calls (clickSort p1 K)
      = [OnChangeSortSetting {| sortKey := K; ascending := true |}]
      /\ props_sortSetting p2 = {| sortKey := K; ascending := true |})
  /\ (calls (clickSort p2 K)
      = [OnChangeSortSetting {| sortKey := VNull; ascending := false |}]
      /\ props_sortSetting p3 = {| sortKey := VNull; ascending := false |}).
Proof.
  intros Hrefl Hother p1 p2 p3.
  assert (H1 : calls (clickSort p K)
               = [OnChangeSortSetting {| sortKey := K; ascending := false |}]).
  { unfold clickSort. rewrite Hother. reflexivity. }
  assert (S1 : props_sortSetting p1 = {| sortKey := K; ascending := false |}).
  { subst p1. unfold click_and_feed. rewrite H1. reflexivity. }
  assert (H2 : calls (clickSort p1 K)
               = [OnChangeSortSetting {| sortKey := K; ascending := true |}]).
  { unfold clickSort. rewrite S1. cbn [sortKey ascending]. rewrite Hrefl.
    reflexivity. }
  assert (S2 : props_sortSetting p2 = {| sortKey := K; ascending := true |}).
  { subst p2. unfold click_and_feed. rewrite H2. reflexivity. }
  assert (H3 : calls (clickSort p2 K)
               = [OnChangeSortSetting {| sortKey := VNull; ascending := false |}]).
  { unfold clickSort. rewrite S2. cbn [sortKey ascending]. rewrite Hrefl.
    reflexivity. }
  repeat split; try assumption.
  subst p3. unfold click_and_feed. rewrite H3. reflexivity.
Qed.

(** *** Rows *)

Lemma filter_concat_all {A B} (P : B -> bool) (R : A -> list B) (l : list A) :
  (forall x, List.filter P (R x) = R x) ->
  List.filter P (concat (map R l)) = concat (map R l).
Proof.
  intros H. induction l as [|x l IH]; [reflexivity|].
  cbn [map concat]. rewrite List.filter_app, H, IH. reflexivity.
Qed.


(** Push [result] through the binds of a computation. *)
Ltac eval_result :=
  repeat first
    [ rewrite result_bind
    | progress cbn [result invoke fst snd mret Eff_ret app] ].

(** Every node [renderRow] returns is an element, so React splices its
    output into the body as it is. *)
Lemma renderRow_flat st p rowIndex :
  concat (map flatten (result (renderRow st p rowIndex)))
  = result (renderRow st p rowIndex).
Proof.
  unfold renderRow. destruct (expandableConfig p) as [cfg|]; cbn.
  - destruct (rowIsExpanded cfg rowIndex); reflexivity.
  - reflexivity.
Qed.

Lemma renderRow_all_tr st p rowIndex :
  List.filter (has_tag "tr") (result (renderRow st p rowIndex))
  = result (renderRow st p rowIndex).
Proof.
  unfold renderRow. destruct (expandableConfig p) as [cfg|]; cbn.
  - destruct (rowIsExpanded cfg rowIndex); reflexivity.
  - reflexivity.
Qed.


(** The body of a rendered table: nothing while loading, otherwise the
    output of [renderRow] for 0, 1, ..., count-1, one after the other. *)
Lemma body_rows_of_indices st p :
  truthy (empty p) = false ->
  exists indices : list Z,
    body_rows (result (render st p))
    = concat (map (fun index => result (renderRow st p (Num index))) indices)
    /\ (truthy (loading p) = true -> indices = [])
    /\ (truthy (loading p) = false ->
        toInteger (count p) <= MAX_ARRAY_LENGTH ->
        indices = seqZ 0 (toInteger (count p)))
    /\ (truthy (loading p) = false ->
        MAX_ARRAY_LENGTH < toInteger (count p) <= MAX_SAFE_INTEGER ->
        indices = seqZ 0 MAX_ARRAY_LENGTH).
Proof.
  intros Hempty. unfold render. rewrite Hempty.
  pose proof (renderRow_flat st p) as Hflat.
  pose proof (renderRow_all_tr st p) as Htr.
  set (R := renderRow st p) in *. clearbody R.
  set (row := fun rowIndex => R rowIndex ≫= fun output => mret (NArray output)).
  destruct (result_times_indices (count p) row)
    as (indices & Hindices & Hmax & Hcapped).
  exists (if truthy (loading p) then [] else indices).
  assert (Hbody : forall l : list Z,
             List.filter (has_tag "tr")
               (concat (map flatten (map (fun index => result (row (Num index))) l)))
             = concat (map (fun index => result (R (Num index))) l)).
  { intros l. rewrite List.map_map.
    rewrite (List.map_ext _ (fun index => result (R (Num index)))).
    - apply filter_concat_all. intros index. apply Htr.
    - intros index. unfold row. rewrite result_bind. apply Hflat. }
  split; [|split; [|split]].
  - destruct (truthy (loading p)), (number_strict_eq (count p) (Num 0));
      cbn [negb]; rewrite !result_bind; try reflexivity.
    + rewrite Hindices. cbn. rewrite !app_nil_r. apply Hbody.
    + rewrite Hindices. cbn. rewrite !app_nil_r. apply Hbody.
  - intros ->. reflexivity.
  - intros ->. exact Hmax.
  - intros ->. exact Hcapped.
Qed.

Lemma body_rows_render st p :
  truthy (empty p) = false ->
  truthy (loading p) = true \/ toInteger (count p) <= MAX_ARRAY_LENGTH ->
  body_rows (result (render st p))
  = if truthy (loading p) then []
    else concat (map (fun index => result (renderRow st p (Num index)))
                     (seqZ 0 (toInteger (count p)))).
Proof.
  intros Hempty Hmax.
  destruct (body_rows_of_indices st p Hempty)
    as (indices & -> & Hloading & Hrows & _).
  destruct (truthy (loading p)).
  - rewrite Hloading; reflexivity.
  - destruct Hmax as [|Hmax]; [discriminate|].
    rewrite Hrows; [reflexivity|reflexivity|assumption].
Qed.





(** The trace of a render that is not loading is the rows' traces, in row
    order; the header and the rest of the markup call nothing. *)
Lemma calls_render st p :
  truthy (empty p) = false ->
  truthy (loading p) = true \/ toInteger (count p) <= MAX_ARRAY_LENGTH ->
  calls (render st p)
  = if truthy (loading p) then []
    else concat (map (fun index => calls (renderRow st p (Num index)))
                     (seqZ 0 (toInteger (count p)))).
Proof.
  intros Hempty Hmax. unfold render. rewrite Hempty.
  set (R := renderRow st p). clearbody R.
  destruct (truthy (loading p)); cbn [negb];
    rewrite !calls_bind; [reflexivity|].
  destruct Hmax as [|Hmax]; [discriminate|].
  rewrite calls_times by assumption.
  cbn [calls mret Eff_ret snd]. rewrite !app_nil_r.
  f_equal. apply List.map_ext. intros index. rewrite calls_bind.
  cbn [calls mret Eff_ret snd]. apply app_nil_r.
Qed.

(** C10.  With a negative count (and the table not in its empty state)
    [render] still returns markup: the body holds no row at all, and no
    caller callback -- no column's [cell] in particular -- was invoked.
    [times] answers any count below one with the empty array. *)
Theorem render_negative_count st p (n : Z) :
  truthy (empty p) = false ->
  count p = Num n ->
  n < 0 ->
  exists markup,
    render st p = (markup, [])
    /\ body_rows markup = []
    /\ data_rows markup = []
    /\ (forall colIndex rowIndex,
           ~ In (Cell colIndex rowIndex) (calls (render st p)))
    /\ (forall m : Z, m < 1 ->
           times (Num m) (renderRow st p) = times (Num 0) (renderRow st p)).
Proof.
  intros Hempty Hcount Hn.
  exists (result (render st p)).
  assert (Hmax : truthy (loading p) = true
                 \/ toInteger (count p) <= MAX_ARRAY_LENGTH).
  { right. rewrite Hcount. unfold MAX_ARRAY_LENGTH. cbn [toInteger]. lia. }
  assert (Hcalls : calls (render st p) = []).
  { rewrite calls_render by assumption. rewrite Hcount. cbn [toInteger].
    rewrite seqZ_nil by lia. destruct (truthy (loading p)); reflexivity. }
  assert (Hbody : body_rows (result (render st p)) = []).
  { rewrite body_rows_render by assumption. rewrite Hcount. cbn [toInteger].
    rewrite seqZ_nil by lia. destruct (truthy (loading p)); reflexivity. }
  repeat split.
  - rewrite <- Hcalls. destruct (render st p); reflexivity.
  - exact Hbody.
  - unfold data_rows. rewrite Hbody. reflexivity.
  - intros colIndex rowIndex. rewrite Hcalls. intros [].
  - intros m Hm. unfold times. cbn [toInteger].
    destruct (Z.ltb_spec m 1); [reflexivity|lia].
Qed.

(** *** Empty, loading and "no results" *)

(** C4.  When [empty] is true, [render] returns the [Empty] view and nothing
    else -- whatever the other props hold, and without calling back.  The view
    is handed [emptyProps] as it came.  There is no header cell, no body row,
    no loading indicator and no "no results" placeholder in the output. *)
Theorem render_empty st p :
  empty p = Some true ->
  render st p = (NEmpty (emptyProps p), [])
  /\ elements "table" (result (render st p)) = []
  /\ header_cells (result (render st p)) = []
  /\ body_rows (result (render st p)) = []
  /\ shows_loading (result (render st p)) = false
  /\ shows_no_results (result (render st p)) = false.
Proof.
  intros Hempty. unfold render. rewrite Hempty. cbn. repeat split.
Qed.

(** The placeholder is decided by the count alone. *)
Lemma shows_no_results_render st p :
  truthy (empty p) = false ->
  shows_no_results (result (render st p))
  = number_strict_eq (count p) (Num 0).
Proof.
  intros Hempty. unfold render. rewrite Hempty. rewrite result_bind.
  destruct (truthy (loading p)), (number_strict_eq (count p) (Num 0));
    reflexivity.
Qed.

(** C3 (as amended).  In a table that is not in its empty state the "no
    results" placeholder is rendered if and only if [count === 0], whether or
    not the table is loading; it is never rendered for a count above 0. *)
Theorem no_results_iff_count_zero st p :
  truthy (empty p) = false ->
  (shows_no_results (result (render st p)) = true <-> count p = Num 0)
  /\ (forall n : Z, count p = Num n -> 0 < n ->
        shows_no_results (result (render st p)) = false).
Proof.
  intros Hempty. rewrite shows_no_results_render by assumption. split.
  - destruct (count p) as [|z]; cbn; [split; discriminate|].
    rewrite Z.eqb_eq. split; [intros ->; reflexivity|intros [= ->]; reflexivity].
  - intros n -> Hn. cbn. apply Z.eqb_neq. lia.
Qed.

(** The loading indicator is shown exactly while loading. *)
Lemma shows_loading_render st p :
  truthy (empty p) = false ->
  shows_loading (result (render st p)) = truthy (loading p).
Proof.
  intros Hempty. unfold render. rewrite Hempty. rewrite result_bind.
  destruct (truthy (loading p)), (number_strict_eq (count p) (Num 0));
    reflexivity.
Qed.

(** *** Header cells *)

Lemma flatten_imap_elements {A} (f : nat -> A -> node EmptyProps) (l : list A) :
  (forall i x, flatten (f i x) = [f i x]) ->
  concat (map flatten (imap f l)) = imap f l.
Proof.
  revert f. induction l as [|x l IH]; intros f Hf; [reflexivity|].
  cbn [imap map concat]. rewrite Hf, IH; [reflexivity|].
  intros i y. apply Hf.
Qed.

Lemma filter_imap_all {A B} (P : B -> bool) (f : nat -> A -> B) (l : list A) :
  (forall i x, P (f i x) = true) ->
  List.filter P (imap f l) = imap f l.
Proof.
  revert f. induction l as [|x l IH]; intros f Hf; [reflexivity|].
  cbn [imap List.filter]. rewrite Hf, IH; [reflexivity|].
  intros i y. apply Hf.
Qed.

(** The header row: a blank cell when rows are expandable, then
    [headerCell] of each column, in column order. *)
Lemma header_cells_render st p :
  truthy (empty p) = false ->
  header_cells (result (render st p))
  = match expandableConfig p with
    | Some _ => [NElem "th" (with_class (cx [CStr "sort-table__cell"])) []]
    | None => []
    end ++ imap (headerCell p) (columns p).
Proof.
  intros Hempty. unfold render. rewrite Hempty. rewrite result_bind.
  assert (Hflat : concat (map flatten (imap (headerCell p) (columns p)))
                 = imap (headerCell p) (columns p))
    by (apply flatten_imap_elements; reflexivity).
  assert (Hth : List.filter (has_tag "th") (imap (headerCell p) (columns p))
               = imap (headerCell p) (columns p))
    by (apply filter_imap_all; reflexivity).
  set (cells := imap (headerCell p) (columns p)) in *. clearbody cells.
  destruct (truthy (loading p)), (number_strict_eq (count p) (Num 0)),
    (expandableConfig p);
    cbn; rewrite !app_nil_r, Hflat, Hth; reflexivity.
Qed.

(** C5.  The header cell of a column carries the "sortable" class and a
    click closure exactly when the column's [sortKey] is not [undefined]; the
    closure is [clickSort] of that key.  Activating the header of a column
    without a [sortKey] calls nothing.  The header row of a rendered table is
    made of these cells. *)
Theorem header_sortable_iff_sortKey st p :
  (truthy (empty p) = false ->
   header_cells (result (render st p))
   = match expandableConfig p with
     | Some _ => [NElem "th" (with_class (cx [CStr "sort-table__cell"])) []]
     | None => []
     end ++ imap (headerCell p) (columns p))
  /\ (forall colIndex (c : SortableColumn EmptyProps),
        let th := headerCell p colIndex c in
        (has_class "sort-table__cell--sortable" th = true
         <-> columnSortKey c <> VUndefined)
        /\ (onClick (attrs_of th) = Some (HeaderClick (columnSortKey c))
            <-> columnSortKey c <> VUndefined)
        /\ (columnSortKey c <> VUndefined ->
            forall p', activate p' th = clickSort p' (columnSortKey c))
        /\ (columnSortKey c = VUndefined ->
            onClick (attrs_of th) = None
            /\ forall p', calls (activate p' th) = [])).
Proof.
  split; [apply header_cells_render|].
  intros colIndex c th. subst th. unfold headerCell, activate, has_class.
  cbn [attrs_of className onClick].
  destruct (columnSortKey c) as [| |b|n|s|a] eqn:Hkey; cbn [isUndefined negb].
  1: { repeat split; try congruence; try discriminate.
       destruct (truthy (firstCellBordered p) && is_first colIndex);
         cbn; discriminate. }
  all: repeat split; try congruence; try discriminate; try reflexivity.
  all: destruct (strict_eq _ _), (ascending _),
         (truthy (firstCellBordered p) && is_first colIndex); reflexivity.
Qed.

(** *** Expandable rows *)

Lemma Forall2_imap {A B} (P : A -> B -> Prop) (f : nat -> A -> B) (l : list A) :
  (forall i x, P x (f i x)) -> Forall2 P l (imap f l).
Proof.
  revert f. induction l as [|x l IH]; intros f Hf; cbn [imap].
  - constructor.
  - constructor; [apply Hf|]. apply IH. intros i y. apply Hf.
Qed.

(** C6.  With an expandable configuration whose [rowIsExpanded(i)] is true,
    [renderRow(i)] returns exactly three rows: the body row; a spacer row
    without content that carries the body row's classes; and the expanded
    row, whose second cell spans as many columns as the table has and holds
    [expandedContent(i)].  When [rowIsExpanded(i)] is false, or there is no
    expandable configuration, it returns the body row alone. *)
Theorem renderRow_expansion st p rowIndex :
  (forall cfg, expandableConfig p = Some cfg ->
     rowIsExpanded cfg rowIndex = true ->
     exists body,
       result (renderRow st p rowIndex)
       = [body;
          NElem "tr"
            {| className := className (attrs_of body);
               key := Some (Num 2);
               onClick := None; colSpan := None; style := None |}
            [];
          NElem "tr"
            {| className := Some ["sort-table__row"; "sort-table__row--body";
                                  "sort-table__row--expanded-area"];
               key := Some (Num 3);
               onClick := None; colSpan := None; style := None |}
            [NElem "td" no_attrs [];
             NElem "td"
               {| className := Some ["sort-table__cell"];
                  key := None; onClick := None;
                  colSpan := Some (length (columns p)); style := None |}
               [expandedContent cfg rowIndex]]]
       /\ data_row_index body = Some rowIndex)
  /\ (forall cfg, expandableConfig p = Some cfg ->
        rowIsExpanded cfg rowIndex = false ->
        exists body,
          result (renderRow st p rowIndex) = [body]
          /\ data_row_index body = Some rowIndex)
  /\ (expandableConfig p = None ->
      exists body,
        result (renderRow st p rowIndex) = [body]
        /\ data_row_index body = Some rowIndex).
Proof.
  unfold renderRow. repeat split.
  - intros cfg -> Hexp. eval_result. rewrite Hexp. eval_result.
    match goal with |- exists body, ?h :: _ = _ /\ _ => exists h end.
    split; reflexivity.
  - intros cfg -> Hexp. eval_result. rewrite Hexp. eval_result.
    eexists. split; reflexivity.
  - intros ->. eval_result. eexists. split; reflexivity.
Qed.

(** C7.  With an expandable configuration, the body row of [renderRow(i)]
    holds the expansion control -- a cell whose glyph is the expanded one when
    [rowIsExpanded(i)] and the collapsed one otherwise -- followed by the
    array of the columns' cells: one [td] per column, in column order, holding
    that column's [cell(i)].  Activating the row calls
    [onChangeExpansion(i, !rowIsExpanded(i))] once and nothing else. *)
Theorem renderRow_body_row st p rowIndex cfg :
  expandableConfig p = Some cfg ->
  exists a cells rest,
    result (renderRow st p rowIndex)
    = NElem "tr" a [expansionControl (rowIsExpanded cfg rowIndex); NArray cells]
      :: rest
    /\ (exists tdAttrs,
          @expansionControl EmptyProps (rowIsExpanded cfg rowIndex)
          = NElem "td" tdAttrs
              [NElem "div" no_attrs
                 [NText (if rowIsExpanded cfg rowIndex then "▼" else "▶")]])
    /\ Forall2 (fun (c : SortableColumn EmptyProps) td =>
                  has_tag "td" td = true
                  /\ children_of td = [cell c rowIndex])
               (columns p) cells
    /\ length cells = length (columns p)
    /\ forall p',
         calls (activate p' (NElem "tr" a
                  [expansionControl (rowIsExpanded cfg rowIndex); NArray cells]))
         = [OnChangeExpansion rowIndex (negb (rowIsExpanded cfg rowIndex))].
Proof.
  intros Hcfg. unfold renderRow. rewrite Hcfg.
  eval_result. rewrite result_imapM.
  destruct (rowIsExpanded cfg rowIndex); eval_result.
  all: do 3 eexists; split; [reflexivity|].
  all: split; [eexists; reflexivity|]; split; [|split].
  all: try (apply Forall2_imap; intros i c; split; reflexivity).
  all: try apply length_imap.
  all: intros p'; reflexivity.
Qed.

(** *** The component's state *)

Lemma after_same st (a : action EmptyProps) : after st a = st.
Proof. destruct a; reflexivity. Qed.

(** The state is never updated: a mounted component is in its initial
    state. *)
Lemma reachable_initial st : reachable EmptyProps st -> st = initialState.
Proof.
  intros [acts ->]. induction acts as [|a acts IH] using rev_ind.
  - reflexivity.
  - rewrite foldl_app. cbn [foldl]. rewrite after_same. exact IH.
Qed.

(** [NaN] is strictly equal to no row index. *)
Lemma NaN_strict_eq rowIndex : number_strict_eq NaN rowIndex = false.
Proof. reflexivity. Qed.

(** The [visible] flag is read nowhere. *)
Lemma renderRow_visible (v1 v2 : bool) (active : number) p rowIndex :
  renderRow {| visible := v1; activeIndex := active |} p rowIndex
  = renderRow {| visible := v2; activeIndex := active |} p rowIndex.
Proof. reflexivity. Qed.

Lemma existsb_tokens_cons (c piece : string) (pieces : list string) :
  existsb (String.eqb c) (concat (map class_tokens (piece :: pieces)))
  = existsb (String.eqb c) (class_tokens piece)
    || existsb (String.eqb c) (concat (map class_tokens pieces)).
Proof. cbn [map concat]. apply existsb_app. Qed.

(** The state enters a row through the test [activeIndex === rowIndex]
    alone. *)
Lemma renderRow_inactive st p rowIndex :
  number_strict_eq (activeIndex st) rowIndex = false ->
  renderRow st p rowIndex = renderRow initialState p rowIndex.
Proof. intros H. unfold renderRow. rewrite H. reflexivity. Qed.

Lemma render_NaN st p :
  activeIndex st = NaN -> render st p = render initialState p.
Proof. destruct st as [v active]. cbn. intros ->. reflexivity. Qed.

(** The classes of the rows [renderRow] returns, with [activeIndex] at
    [NaN]: "drawer-active" is among them only when [rowClass] said so. *)
Lemma renderRow_drawer_active st p rowIndex (row : node EmptyProps) :
  activeIndex st = NaN ->
  In row (result (renderRow st p rowIndex)) ->
  has_class "drawer-active" row = true ->
  In "drawer-active" (class_tokens (props_rowClass p rowIndex)).
Proof.
  intros Hactive. unfold renderRow. rewrite Hactive, NaN_strict_eq.
  set (rc := props_rowClass p rowIndex). clearbody rc.
  assert (Hrc : forall tail : list string,
             existsb (String.eqb "drawer-active")
               (concat (map class_tokens tail)) = false ->
             existsb (String.eqb "drawer-active")
               (concat (map class_tokens
                  ("sort-table__row" :: "sort-table__row--body"
                   :: cx_arg (CStr rc) ++ tail))) = true ->
             In "drawer-active" (class_tokens rc)).
  { intros tail Htail. rewrite !existsb_tokens_cons.
    change (existsb (String.eqb "drawer-active") (class_tokens "sort-table__row"))
      with false.
    change (existsb (String.eqb "drawer-active")
              (class_tokens "sort-table__row--body")) with false.
    cbn [orb cx_arg].
    destruct (String.eqb_spec rc "") as [->|_]; cbn [app].
    - rewrite Htail. discriminate.
    - rewrite existsb_tokens_cons, Htail, orb_false_r.
      intros (name & Hin & Hname)%existsb_exists.
      apply String.eqb_eq in Hname. subst name. exact Hin. }
  destruct (expandableConfig p) as [cfg|]; eval_result.
  - destruct (rowIsExpanded cfg rowIndex); eval_result;
      cbn [In]; intros Hin; repeat destruct Hin as [<-|Hin]; try destruct Hin;
      unfold has_class; cbn [attrs_of className];
      try (apply Hrc; reflexivity).
    intros Hclass. vm_compute in Hclass. discriminate Hclass.
  - cbn [In]. intros [<-|[]]. unfold has_class. cbn [attrs_of className].
    apply Hrc. reflexivity.
Qed.

(** When the test succeeds, the body row does get the class. *)
Lemma renderRow_active st p rowIndex :
  number_strict_eq (activeIndex st) rowIndex = true ->
  exists body rest,
    result (renderRow st p rowIndex) = body :: rest
    /\ has_class "drawer-active" body = true.
Proof.
  intros Hactive. unfold renderRow. rewrite Hactive.
  destruct (expandableConfig p) as [cfg|]; eval_result.
  - destruct (rowIsExpanded cfg rowIndex); eval_result;
      do 2 eexists; (split; [reflexivity|]); reflexivity.
  - do 2 eexists. split; reflexivity.
Qed.

(** C8 (as amended).  The state is initialized with [activeIndex] at [NaN]
    and no method updates it.  [renderRow] reads the state in one place, the
    test [activeIndex === rowIndex]: where the test fails the row is rendered
    as in the initial state (the [visible] flag is read nowhere), and where
    it succeeds the body row gets "drawer-active".  With [activeIndex] at
    [NaN] the test fails for every row, so a render returns the markup and
    makes the calls of the initial state, and a row carries "drawer-active"
    only if that is one of the class names the caller's [rowClass] returned
    for the row. *)
Theorem state_has_no_effect p :
  activeIndex initialState = NaN
  /\ (forall st, reachable EmptyProps st -> activeIndex st = NaN)
  /\ (forall st rowIndex,
        number_strict_eq (activeIndex st) rowIndex = false ->
        renderRow st p rowIndex = renderRow initialState p rowIndex)
  /\ (forall st, activeIndex st = NaN -> render st p = render initialState p)
  /\ (forall st rowIndex (row : node EmptyProps),
        activeIndex st = NaN ->
        In row (result (renderRow st p rowIndex)) ->
        has_class "drawer-active" row = true ->
        In "drawer-active" (class_tokens (props_rowClass p rowIndex)))
  /\ (forall st rowIndex,
        number_strict_eq (activeIndex st) rowIndex = true ->
        exists body rest,
          result (renderRow st p rowIndex) = body :: rest
          /\ has_class "drawer-active" body = true).
Proof.
  split; [reflexivity|]. split; [|split; [|split; [|split]]].
  - intros st ->%reachable_initial. reflexivity.
  - intros st rowIndex. apply renderRow_inactive.
  - intros st. apply render_NaN.
  - intros st rowIndex row. apply renderRow_drawer_active.
  - intros st rowIndex. apply renderRow_active.
Qed.

End Properties.

(** ** The properties on the sample tables *)

(** Clicking "Age" on the unsorted table asks for a descending sort by age. *)
Lemma clickSort_tristate_witness :
  strict_eq (sortKey (props_sortSetting Sample.people)) (VString "age") = false
  /\ calls (clickSort Sample.people (VString "age"))
     = [OnChangeSortSetting {| sortKey := VString "age"; ascending := false |}].
Proof.
  split; [reflexivity|].
  apply (proj1 (clickSort_tristate Sample.people (VString "age"))).
  reflexivity.
Defined.

(** Three clicks on "Age" come back to the cleared setting. *)
Lemma three_clicks_cycle_witness :
  props_sortSetting
    (click_and_feed (VString "age")
       (click_and_feed (VString "age")
          (click_and_feed (VString "age") Sample.people)))
  = {| sortKey := VNull; ascending := false |}.
Proof.
  apply (three_clicks_cycle Sample.people (VString "age")); reflexivity.
Defined.

(** A column keyed by [NaN] never leaves the descending setting: after three
    clicks the sort is not cleared, and the second click did not turn it
    ascending. *)
Lemma three_clicks_NaN :
  strict_eq (sortKey (props_sortSetting Sample.people)) (VNumber NaN) = false
  /\ props_sortSetting
       (click_and_feed (VNumber NaN)
          (click_and_feed (VNumber NaN) Sample.people))
     = {| sortKey := VNumber NaN; ascending := false |}
  /\ props_sortSetting
       (click_and_feed (VNumber NaN)
          (click_and_feed (VNumber NaN)
             (click_and_feed (VNumber NaN) Sample.people)))
     = {| sortKey := VNumber NaN; ascending := false |}
  /\ {| sortKey := VNumber NaN; ascending := false |}
     <> {| sortKey := VNull; ascending := false |}.
Proof. repeat split; try reflexivity. discriminate. Qed.



(** A loading table without rows shows the placeholder all the same. *)
Lemma no_results_while_loading :
  let p := Sample.set_loading true (Sample.set_count (Num 0) Sample.people) in
  truthy (empty p) = false
  /\ count p = Num 0
  /\ truthy (loading p) = true
  /\ shows_loading (result (render initialState p)) = true
  /\ shows_no_results (result (render initialState p)) = true.
Proof. repeat split. Qed.

Lemma no_results_iff_count_zero_witness :
  shows_no_results (result (render initialState Sample.people)) = false.
Proof.
  apply (proj2 (no_results_iff_count_zero initialState Sample.people eq_refl) 3);
    [reflexivity | lia].
Defined.

Lemma render_empty_witness :
  render initialState (Sample.set_empty "Nobody yet" Sample.people)
  = (NEmpty (Some "Nobody yet"), []).
Proof.
  apply (render_empty initialState (Sample.set_empty "Nobody yet" Sample.people)).
  reflexivity.
Defined.

(** "Age" is interactive, "Name" is not. *)
Lemma header_sortable_iff_sortKey_witness :
  onClick (attrs_of (headerCell Sample.people 1 Sample.ageColumn))
  = Some (HeaderClick (VString "age"))
  /\ calls (activate Sample.people (headerCell Sample.people 0 Sample.nameColumn))
     = [].
Proof.
  pose proof (header_sortable_iff_sortKey initialState Sample.people) as [_ H].
  split.
  - apply (H 1%nat Sample.ageColumn). discriminate.
  - apply (H 0%nat Sample.nameColumn). reflexivity.
Defined.

(** Row 1 of the expandable sample is expanded: three rows come back. *)
Lemma renderRow_expansion_witness :
  length (result (renderRow initialState Sample.expandablePeople (Num 1))) = 3%nat
  /\ length (result (renderRow initialState Sample.expandablePeople (Num 0))) = 1%nat.
Proof.
  pose proof (renderRow_expansion initialState Sample.expandablePeople (Num 1))
    as [H1 _].
  pose proof (renderRow_expansion initialState Sample.expandablePeople (Num 0))
    as [_ [H0 _]].
  destruct (H1 Sample.details eq_refl eq_refl) as [body1 [-> _]].
  destruct (H0 Sample.details eq_refl eq_refl) as [body0 [-> _]].
  split; reflexivity.
Defined.

Lemma renderRow_body_row_witness :
  exists a cells rest,
    result (renderRow initialState Sample.expandablePeople (Num 1))
    = NElem "tr" a [expansionControl true; NArray cells] :: rest
    /\ length cells = 2%nat
    /\ calls (activate Sample.expandablePeople
                (NElem "tr" a [expansionControl true; NArray cells]))
       = [OnChangeExpansion (Num 1) false].
Proof.
  destruct (renderRow_body_row initialState Sample.expandablePeople (Num 1)
              Sample.details eq_refl)
    as (a & cells & rest & Hrow & _ & _ & Hlen & Hclick).
  exists a, cells, rest. split; [exact Hrow|]. split; [exact Hlen|].
  apply Hclick.
Defined.

(** A caller whose [rowClass] answers with "drawer-active" among its class
    names gets it on its rows. *)
Lemma drawer_active_from_rowClass :
  let p := Sample.set_rowClass (fun _ => "striped drawer-active") Sample.people in
  existsb (has_class "drawer-active")
    (body_rows (result (render initialState p))) = true
  /\ Forall (fun row => has_class "drawer-active" row = true)
       (body_rows (result (render initialState p))).
Proof.
  split; [reflexivity|]. repeat constructor.
Qed.

Lemma state_has_no_effect_witness :
  render {| visible := true; activeIndex := NaN |} Sample.expandablePeople
  = render initialState Sample.expandablePeople
  /\ Forall (fun row => has_class "drawer-active" row = false)
       (result (renderRow initialState Sample.expandablePeople (Num 1))).
Proof.
  pose proof (state_has_no_effect Sample.expandablePeople)
    as (_ & _ & _ & Hrender & Hclass & _).
  split; [apply Hrender; reflexivity|].
  apply Forall_forall. intros row Hin%list_elem_of_In.
  destruct (has_class "drawer-active" row) eqn:Hrow; [|reflexivity].
  destruct (Hclass initialState (Num 1) row eq_refl Hin Hrow).
Defined.

(** A count of -2 renders an empty body and calls nothing. *)
Lemma render_negative_count_witness :
  exists markup,
    render initialState (Sample.set_count (Num (-2)) Sample.people) = (markup, [])
    /\ data_rows markup = [].
Proof.
  destruct (render_negative_count initialState
              (Sample.set_count (Num (-2)) Sample.people) (-2))
    as (markup & Hrender & _ & Hrows & _); [reflexivity | reflexivity | lia |].
  exists markup. split; assumption.
Defined.

(** ** Further properties of the component *)

Section Callbacks.

Context {EmptyProps : Type}.

Implicit Types (p : TableProps EmptyProps) (st : State) (K : value).
Implicit Types (rowIndex : number) (cfg : ExpandableConfig EmptyProps).

Lemma calls_imapM {A B} (f : nat -> A -> Eff B) (l : list A) :
  calls (imapM f l) = concat (imap (fun i x => calls (f i x)) l).
Proof.
  revert f. induction l as [|x l IH]; intros f; [reflexivity|].
  cbn [imapM]. rewrite !calls_bind, IH. cbn [imap concat]. f_equal.
  apply app_nil_r.
Qed.

Lemma concat_imap_singleton {A B} (g : nat -> A -> B) (l : list A) :
  concat (imap (fun i x => [g i x]) l) = imap g l.
Proof.
  revert g. induction l as [|x l IH]; intros g; [reflexivity|].
  cbn [imap concat app]. f_equal. apply (IH (fun i => g (S i))).
Qed.

(** Push [calls] and [result] through the binds of a computation. *)
Ltac eval_eff :=
  repeat first
    [ rewrite calls_bind
    | rewrite result_bind
    | progress cbn [calls result invoke fst snd mret Eff_ret app] ].

(** The calls [renderRow(i)] makes, in order. *)
Lemma renderRow_trace st p rowIndex :
  calls (renderRow st p rowIndex)
  = match expandableConfig p with
    | None =>
        RowClass rowIndex
        :: imap (fun colIndex _ => Cell colIndex rowIndex) (columns p)
    | Some cfg =>
        RowClass rowIndex :: RowIsExpanded rowIndex
        :: imap (fun colIndex _ => Cell colIndex rowIndex) (columns p)
        ++ RowIsExpanded rowIndex
        :: (if rowIsExpanded cfg rowIndex
            then [ExpandedContent rowIndex] else [])
    end.
Proof.
  unfold renderRow.
  destruct (expandableConfig p) as [cfg|]; eval_eff; rewrite calls_imapM.
  - destruct (rowIsExpanded cfg rowIndex); eval_eff;
      rewrite ?app_nil_r; do 2 f_equal; f_equal;
      apply (concat_imap_singleton (fun colIndex _ => Cell colIndex rowIndex)).
  - rewrite app_nil_r. f_equal.
    apply (concat_imap_singleton (fun colIndex _ => Cell colIndex rowIndex)).
Qed.

Lemma omap_imap_Some {A B C} (f : B -> option C) (g : nat -> A -> B)
    (h : nat -> A -> C) (l : list A) :
  (forall i x, f (g i x) = Some (h i x)) ->
  omap f (imap g l) = imap h l.
Proof.
  revert g h. induction l as [|x l IH]; intros g h H; [reflexivity|].
  cbn. rewrite H. f_equal.
  apply (IH (fun i => g (S i)) (fun i => h (S i))). intros i y. apply H.
Qed.

Lemma omap_imap_None {A B C} (f : B -> option C) (g : nat -> A -> B)
    (l : list A) :
  (forall i x, f (g i x) = None) ->
  omap f (imap g l) = [].
Proof.
  revert g. induction l as [|x l IH]; intros g H; [reflexivity|].
  cbn. rewrite H.
  apply (IH (fun i => g (S i))). intros i y. apply H.
Qed.

Lemma omap_concat_map {A B C} (f : B -> option C) (R : A -> list B)
    (l : list A) :
  omap f (concat (map R l)) = concat (map (fun x => omap f (R x)) l).
Proof.
  induction l as [|x l IH]; [reflexivity|].
  cbn [map concat]. rewrite omap_app, IH. reflexivity.
Qed.

Lemma cell_calls_renderRow st p rowIndex :
  cell_calls (calls (renderRow st p rowIndex))
  = imap (fun colIndex _ => (colIndex, rowIndex)) (columns p).
Proof.
  unfold cell_calls. rewrite renderRow_trace.
  destruct (expandableConfig p) as [cfg|].
  - change (omap cell_call
              (imap (fun colIndex _ => Cell colIndex rowIndex) (columns p)
               ++ RowIsExpanded rowIndex
                  :: (if rowIsExpanded cfg rowIndex
                      then [ExpandedContent rowIndex] else []))
            = imap (fun colIndex _ => (colIndex, rowIndex)) (columns p)).
    rewrite omap_app.
    rewrite (omap_imap_Some cell_call _
               (fun colIndex _ => (colIndex, rowIndex))) by reflexivity.
    destruct (rowIsExpanded cfg rowIndex); cbn; apply app_nil_r.
  - change (omap cell_call
              (imap (fun colIndex _ => Cell colIndex rowIndex) (columns p))
            = imap (fun colIndex _ => (colIndex, rowIndex)) (columns p)).
    apply omap_imap_Some. reflexivity.
Qed.

Lemma expanded_content_calls_renderRow st p rowIndex :
  expanded_content_calls (calls (renderRow st p rowIndex))
  = match expandableConfig p with
    | Some cfg => if rowIsExpanded cfg rowIndex then [rowIndex] else []
    | None => []
    end.
Proof.
  unfold expanded_content_calls. rewrite renderRow_trace.
  destruct (expandableConfig p) as [cfg|].
  - change (omap expanded_content_call
              (imap (fun colIndex _ => Cell colIndex rowIndex) (columns p)
               ++ RowIsExpanded rowIndex
                  :: (if rowIsExpanded cfg rowIndex
                      then [ExpandedContent rowIndex] else []))
            = if rowIsExpanded cfg rowIndex then [rowIndex] else []).
    rewrite omap_app, omap_imap_None by reflexivity.
    destruct (rowIsExpanded cfg rowIndex); reflexivity.
  - change (omap expanded_content_call
              (imap (fun colIndex _ => Cell colIndex rowIndex) (columns p))
            = []).
    apply omap_imap_None. reflexivity.
Qed.

Lemma length_concat_map_const {A B} (R : A -> list B) (k : nat) (l : list A) :
  (forall x, length (R x) = k) ->
  length (concat (map R l)) = (length l * k)%nat.
Proof.
  intros H. induction l as [|x l IH]; [reflexivity|].
  cbn [map concat length]. rewrite length_app, H, IH. reflexivity.
Qed.

(** X1.  The calls one [render] makes into the caller's code, for a count up
    to [MAX_ARRAY_LENGTH].  While loading it makes none.  Otherwise it goes
    through the rows 0, 1, ..., count-1 in order and for each row calls: [rowClass]; [rowIsExpanded] if
    there is an expandable configuration; every column's [cell], in column
    order; and with an expandable configuration [rowIsExpanded] once more,
    followed by [expandedContent] if the row is expanded.  The header, the
    loading indicator and the placeholder call nothing. *)
Theorem render_calls st p :
  truthy (empty p) = false ->
  toInteger (count p) <= MAX_ARRAY_LENGTH ->
  calls (render st p)
  = if truthy (loading p) then []
    else
      concat
        (map (fun index =>
                let rowIndex := Num index in
                match expandableConfig p with
                | None =>
                    RowClass rowIndex
                    :: imap (fun colIndex _ => Cell colIndex rowIndex) (columns p)
                | Some cfg =>
                    RowClass rowIndex :: RowIsExpanded rowIndex
                    :: imap (fun colIndex _ => Cell colIndex rowIndex) (columns p)
                    ++ RowIsExpanded rowIndex
                    :: (if rowIsExpanded cfg rowIndex
                        then [ExpandedContent rowIndex] else [])
                end)
             (seqZ 0 (toInteger (count p)))).
Proof.
  intros Hempty Hmax. rewrite calls_render by auto.
  destruct (truthy (loading p)); [reflexivity|].
  f_equal. apply List.map_ext. intros index. apply renderRow_trace.
Qed.

(** X2.  In a table of [n] rows, [n] from 0 up to [MAX_ARRAY_LENGTH], that
    is not loading, every column's [cell]
    is called exactly once for every row, row after row and within a row in
    column order: [n] times the number of columns calls in all.  While
    loading [cell] is not called. *)
Theorem render_cell_calls st p (n : Z) :
  truthy (empty p) = false ->
  count p = Num n ->
  0 <= n <= MAX_ARRAY_LENGTH ->
  (truthy (loading p) = false ->
   cell_calls (calls (render st p))
   = concat (map (fun index =>
                    imap (fun colIndex _ => (colIndex, Num index)) (columns p))
                 (seqZ 0 n))
   /\ length (cell_calls (calls (render st p)))
      = (Z.to_nat n * length (columns p))%nat)
  /\ (truthy (loading p) = true -> cell_calls (calls (render st p)) = []).
Proof.
  intros Hempty Hcount Hn.
  rewrite calls_render; [|assumption|right; rewrite Hcount; apply Hn].
  rewrite Hcount. cbn [toInteger].
  split; intros ->; [|reflexivity].
  unfold cell_calls. rewrite omap_concat_map.
  rewrite (List.map_ext _
             (fun index =>
                imap (fun colIndex _ => (colIndex, Num index)) (columns p)))
    by (intros index; apply cell_calls_renderRow).
  split; [reflexivity|].
  rewrite (length_concat_map_const _ (length (columns p)))
    by (intros index; apply length_imap).
  rewrite length_seqZ. reflexivity.
Qed.

(** X3.  For a count up to [MAX_ARRAY_LENGTH], [expandedContent] is called
    exactly once for each expanded row among the rows 0, ..., count-1, in
    row order, and for no other row; a
    table without expandable configuration, or one that is loading, never
    calls it. *)
Theorem render_expanded_content_calls st p :
  truthy (empty p) = false ->
  toInteger (count p) <= MAX_ARRAY_LENGTH ->
  expanded_content_calls (calls (render st p))
  = match expandableConfig p with
    | Some cfg =>
        if truthy (loading p) then []
        else map Num
               (List.filter (fun index => rowIsExpanded cfg (Num index))
                            (seqZ 0 (toInteger (count p))))
    | None => []
    end.
Proof.
  intros Hempty Hmax. rewrite calls_render by auto.
  destruct (truthy (loading p)); [destruct (expandableConfig p); reflexivity|].
  unfold expanded_content_calls. rewrite omap_concat_map.
  generalize (seqZ 0 (toInteger (count p))) as l.
  induction l as [|index l IH]; [destruct (expandableConfig p); reflexivity|].
  cbn [map concat List.filter].
  fold (expanded_content_calls (calls (renderRow st p (Num index)))).
  rewrite expanded_content_calls_renderRow, IH.
  destruct (expandableConfig p) as [cfg|]; [|reflexivity].
  destruct (rowIsExpanded cfg (Num index)); reflexivity.
Qed.

End Callbacks.

Section Layout.

Context {EmptyProps : Type}.

Implicit Types (p : TableProps EmptyProps) (st : State).
Implicit Types (rowIndex : number) (cfg : ExpandableConfig EmptyProps).

Ltac eval_rows :=
  repeat first
    [ rewrite result_bind
    | progress cbn [result invoke fst snd mret Eff_ret app] ].

Lemma length_renderRow st p rowIndex :
  length (result (renderRow st p rowIndex))
  = match expandableConfig p with
    | Some cfg => if rowIsExpanded cfg rowIndex then 3%nat else 1%nat
    | None => 1%nat
    end.
Proof.
  unfold renderRow. destruct (expandableConfig p) as [cfg|]; eval_rows.
  - destruct (rowIsExpanded cfg rowIndex); reflexivity.
  - reflexivity.
Qed.

(** X4.  A table of [n] rows, [n] from 0 up to [MAX_ARRAY_LENGTH], that is
    not loading puts [n] rows in its body
    plus two more for every expanded row (the spacer and the expanded area);
    without expandable configuration it puts exactly [n]. *)
Theorem render_body_row_count st p (n : Z) :
  truthy (empty p) = false ->
  truthy (loading p) = false ->
  count p = Num n ->
  0 <= n <= MAX_ARRAY_LENGTH ->
  length (body_rows (result (render st p)))
  = (Z.to_nat n
     + 2 * match expandableConfig p with
           | Some cfg =>
               length (List.filter (fun index => rowIsExpanded cfg (Num index))
                                   (seqZ 0 n))
           | None => 0
           end)%nat.
Proof.
  intros Hempty Hloading Hcount Hn.
  rewrite body_rows_render; [|assumption|right; rewrite Hcount; apply Hn].
  rewrite Hloading, Hcount.
  cbn [toInteger]. rewrite <- (length_seqZ 0 n).
  generalize (seqZ 0 n) as l.
  induction l as [|index l IH].
  - destruct (expandableConfig p); reflexivity.
  - cbn [map concat List.filter]. rewrite length_app, IH, length_renderRow.
    destruct (expandableConfig p) as [cfg|]; [|cbn [length]; lia].
    destruct (rowIsExpanded cfg (Num index)); cbn [length]; lia.
Qed.

Lemma keys_renderRow st p rowIndex :
  keys_of (result (renderRow st p rowIndex))
  = Some rowIndex
    :: match expandableConfig p with
       | Some cfg =>
           if rowIsExpanded cfg rowIndex
           then [Some (Num 2); Some (Num 3)] else []
       | None => []
       end.
Proof.
  unfold renderRow. destruct (expandableConfig p) as [cfg|]; eval_rows.
  - destruct (rowIsExpanded cfg rowIndex); reflexivity.
  - reflexivity.
Qed.

(** X5.  The three rows returned for an expanded row carry the keys
    [rowIndex], 2 and 3.  They are pairwise distinct unless the row is row 2
    or row 3: for those two rows the body row shares its key with the spacer
    or with the expanded area. *)
Theorem renderRow_keys_distinct st p cfg (index : Z) :
  expandableConfig p = Some cfg ->
  rowIsExpanded cfg (Num index) = true ->
  keys_of (result (renderRow st p (Num index)))
  = [Some (Num index); Some (Num 2); Some (Num 3)]
  /\ (NoDup (keys_of (result (renderRow st p (Num index))))
      <-> index <> 2 /\ index <> 3).
Proof.
  intros Hcfg Hexp. rewrite keys_renderRow, Hcfg, Hexp.
  split; [reflexivity|]. rewrite !NoDup_cons, !elem_of_cons. split.
  - intros [Hnot _]. split; intros ->; apply Hnot; auto.
  - intros [H2 H3]. repeat split.
    + intros [[=]|[[=]|Hin]]; [lia|lia|]. inversion Hin.
    + intros [[=]|Hin]. inversion Hin.
    + intros Hin. inversion Hin.
    + constructor.
Qed.

Lemma sum_spans_imap {A} (f : nat -> A -> node EmptyProps) (l : list A) :
  (forall i x, cell_span (f i x) = 1%nat) ->
  sum_list (map cell_span (imap f l)) = length l.
Proof.
  revert f. induction l as [|x l IH]; intros f Hf; [reflexivity|].
  cbn [imap map sum_list length]. rewrite Hf, IH; [reflexivity|].
  intros i y. apply Hf.
Qed.

Lemma length_header_cells st p :
  truthy (empty p) = false ->
  length (header_cells (result (render st p)))
  = (match expandableConfig p with Some _ => 1 | None => 0 end
     + length (columns p))%nat.
Proof.
  intros Hempty. rewrite header_cells_render by assumption.
  rewrite length_app, length_imap. destruct (expandableConfig p); reflexivity.
Qed.

(** The widths of the rows [renderRow] returns, one after the other. *)
Lemma renderRow_row_widths st p rowIndex :
  map row_width (result (renderRow st p rowIndex))
  = match expandableConfig p with
    | Some cfg =>
        if rowIsExpanded cfg rowIndex
        then [(1 + length (columns p))%nat; 0%nat;
              (1 + html_colspan (length (columns p)))%nat]
        else [(1 + length (columns p))%nat]
    | None => [length (columns p)]
    end.
Proof.
  unfold renderRow.
  assert (Hcells : forall f : nat -> SortableColumn EmptyProps -> Eff (node EmptyProps),
            (forall i c, flatten (result (f i c)) = [result (f i c)]) ->
            (forall i c, cell_span (result (f i c)) = 1%nat) ->
            sum_list (map cell_span
                        (concat (map flatten (result (imapM f (columns p))))))
            = length (columns p)).
  { intros f Hflat Hspan. rewrite result_imapM.
    rewrite flatten_imap_elements by (intros; apply Hflat).
    apply sum_spans_imap. intros; apply Hspan. }
  destruct (expandableConfig p) as [cfg|]; eval_rows.
  - destruct (rowIsExpanded cfg rowIndex); eval_rows; cbn [map];
      unfold row_width;
      cbn [rendered_children map concat flatten expansionControl];
      rewrite ?app_nil_r; cbn [app map sum_list];
      rewrite Hcells by reflexivity.
    + unfold cell_span. cbn [attrs_of colSpan no_attrs with_class].
      rewrite Nat.add_0_r. reflexivity.
    + reflexivity.
  - cbn [map]. unfold row_width.
    cbn [rendered_children map concat flatten]. rewrite app_nil_r.
    cbn [app]. rewrite Hcells by reflexivity. reflexivity.
Qed.

(** X6.  The widths of the table's rows, counted as HTML lays them out.  The
    body consists of what [renderRow] returned for some row indices.  For
    each row index the body row is exactly as wide as the header row (one
    cell per header cell), whatever the columns are; an expanded row is
    followed by a spacer of width 0, that is without cells, and by the
    expanded area, whose width is one cell plus its [colSpan].  The expanded
    area is as wide as the header when the table has between 1 and 1000
    columns; [colSpan] does not reach beyond that, and without columns it
    counts as 1, one more than the header has. *)
Theorem render_rows_match_header st p :
  truthy (empty p) = false ->
  let header := length (header_cells (result (render st p))) in
  (exists indices : list Z,
      body_rows (result (render st p))
      = concat (map (fun index => result (renderRow st p (Num index))) indices))
  /\ (forall rowIndex,
        map row_width (result (renderRow st p rowIndex))
        = match expandableConfig p with
          | Some cfg =>
              if rowIsExpanded cfg rowIndex
              then [header; 0%nat;
                    (1 + html_colspan (length (columns p)))%nat]
              else [header]
          | None => [header]
          end)
  /\ (forall cfg, expandableConfig p = Some cfg ->
        ((1 + html_colspan (length (columns p)))%nat = header
         <-> (1 <= length (columns p) <= 1000)%nat)).
Proof.
  intros Hempty header. subst header.
  rewrite length_header_cells by assumption.
  split; [|split].
  - destruct (body_rows_of_indices st p Hempty) as (indices & Hbody & _).
    exists indices. exact Hbody.
  - intros rowIndex. rewrite renderRow_row_widths.
    destruct (expandableConfig p); reflexivity.
  - intros cfg ->. unfold html_colspan.
    destruct (length (columns p)) as [|n]; lia.
Qed.

End Layout.

Section SortIndicator.

Context {EmptyProps : Type}.

Implicit Types (p : TableProps EmptyProps) (st : State) (K : value).
Implicit Types (c : SortableColumn EmptyProps) (colIndex : nat).

Lemma strict_eq_sym (a b : value) : strict_eq a b = strict_eq b a.
Proof.
  destruct a as [| |x|[|x]|x|x], b as [| |y|[|y]|y|y]; cbn; try reflexivity.
  - destruct x, y; reflexivity.
  - apply Z.eqb_sym.
  - apply String.eqb_sym.
  - apply Nat.eqb_sym.
Qed.

Lemma header_sortable p colIndex c :
  has_class "sort-table__cell--sortable" (headerCell p colIndex c)
  = negb (isUndefined (columnSortKey c)).
Proof.
  unfold headerCell, has_class. cbn [attrs_of className].
  destruct (isUndefined (columnSortKey c)),
    (strict_eq (columnSortKey c) (sortKey (props_sortSetting p))),
    (ascending (props_sortSetting p)),
    (truthy (firstCellBordered p) && is_first colIndex); reflexivity.
Qed.

Lemma header_ascending p colIndex c :
  has_class "sort-table__cell--ascending" (headerCell p colIndex c)
  = negb (isUndefined (columnSortKey c))
    && strict_eq (columnSortKey c) (sortKey (props_sortSetting p))
    && ascending (props_sortSetting p).
Proof.
  unfold headerCell, has_class. cbn [attrs_of className].
  destruct (isUndefined (columnSortKey c)),
    (strict_eq (columnSortKey c) (sortKey (props_sortSetting p))),
    (ascending (props_sortSetting p)),
    (truthy (firstCellBordered p) && is_first colIndex); reflexivity.
Qed.

Lemma header_descending p colIndex c :
  has_class "sort-table__cell--descending" (headerCell p colIndex c)
  = negb (isUndefined (columnSortKey c))
    && strict_eq (columnSortKey c) (sortKey (props_sortSetting p))
    && negb (ascending (props_sortSetting p)).
Proof.
  unfold headerCell, has_class. cbn [attrs_of className].
  destruct (isUndefined (columnSortKey c)),
    (strict_eq (columnSortKey c) (sortKey (props_sortSetting p))),
    (ascending (props_sortSetting p)),
    (truthy (firstCellBordered p) && is_first colIndex); reflexivity.
Qed.

(** The setting the parent holds after one click on [K]. *)
Lemma click_and_feed_next K p :
  props_sortSetting (click_and_feed K p)
  = if strict_eq (sortKey (props_sortSetting p)) K then
      if ascending (props_sortSetting p)
      then {| sortKey := VNull; ascending := false |}
      else {| sortKey := K; ascending := true |}
    else {| sortKey := K; ascending := false |}.
Proof.
  unfold click_and_feed, clickSort.
  destruct (strict_eq _ K), (ascending (props_sortSetting p)); reflexivity.
Qed.

(** X7.  A header cell carries the ascending marker exactly when its column
    has a [sortKey], that key [===] the current sort key, and the current
    setting is ascending; the descending marker exactly when the first two
    hold and the setting is not ascending.  It never carries both, and a
    column without [sortKey] carries neither. *)
Theorem header_sort_marker p colIndex c :
  let th := headerCell p colIndex c in
  let current := props_sortSetting p in
  let matches :=
    negb (isUndefined (columnSortKey c))
    && strict_eq (columnSortKey c) (sortKey current) in
  has_class "sort-table__cell--ascending" th = matches && ascending current
  /\ has_class "sort-table__cell--descending" th
     = matches && negb (ascending current)
  /\ has_class "sort-table__cell--ascending" th
     && has_class "sort-table__cell--descending" th = false.
Proof.
  cbv zeta. rewrite header_ascending, header_descending.
  repeat split.
  destruct (isUndefined (columnSortKey c)),
    (strict_eq (columnSortKey c) (sortKey (props_sortSetting p))),
    (ascending (props_sortSetting p)); reflexivity.
Qed.

(** X8.  Clicks and the header agree.  For a column whose key [K] is defined
    and not [NaN], starting from a sort on another key and feeding each
    emitted setting back: after the first click the column's header shows the
    descending marker, after the second the ascending marker, and after the
    third neither (unless [K] is [null], which the cleared setting matches).
    Columns whose key is not [=== K] show no marker after the first and the
    second click. *)
Theorem click_then_header_marker p K colIndex c :
  columnSortKey c = K ->
  isUndefined K = false ->
  strict_eq K K = true ->
  strict_eq (sortKey (props_sortSetting p)) K = false ->
  let p1 := click_and_feed K p in
  let p2 := click_and_feed K p1 in
  let p3 := click_and_feed K p2 in
  let asc q c' := has_class "sort-table__cell--ascending" (headerCell q colIndex c') in
  let desc q c' := has_class "sort-table__cell--descending" (headerCell q colIndex c') in
  (asc p1 c = false /\ desc p1 c = true)
  /\ (asc p2 c = true /\ desc p2 c = false)
  /\ (asc p3 c = false /\ desc p3 c = strict_eq K VNull)
  /\ (forall c', strict_eq (columnSortKey c') K = false ->
        asc p1 c' = false /\ desc p1 c' = false
        /\ asc p2 c' = false /\ desc p2 c' = false).
Proof.
  intros Hc Hdef Hrefl Hother p1 p2 p3 asc desc. subst asc desc. cbn beta.
  assert (S1 : props_sortSetting p1 = {| sortKey := K; ascending := false |}).
  { subst p1. rewrite click_and_feed_next, Hother. reflexivity. }
  assert (S2 : props_sortSetting p2 = {| sortKey := K; ascending := true |}).
  { subst p2. rewrite click_and_feed_next, S1. cbn [sortKey ascending].
    rewrite Hrefl. reflexivity. }
  assert (S3 : props_sortSetting p3 = {| sortKey := VNull; ascending := false |}).
  { subst p3. rewrite click_and_feed_next, S2. cbn [sortKey ascending].
    rewrite Hrefl. reflexivity. }
  rewrite !header_ascending, !header_descending, S1, S2, S3, Hc, Hdef.
  cbn [sortKey ascending negb andb]. rewrite Hrefl.
  split; [split; reflexivity|]. split; [split; reflexivity|].
  split; [split; [apply andb_false_r|apply andb_true_r]|].
  intros c' Hc'.
  rewrite !header_ascending, !header_descending, S1, S2.
  cbn [sortKey ascending]. rewrite Hc'.
  rewrite !andb_false_r. repeat split; reflexivity.
Qed.

(** X9.  A column whose [sortKey] is [null] counts as sortable, and [null]
    is also the key of the cleared setting.  So while no sort is active its
    header is marked interactive and carries a direction marker (descending
    for the cleared setting), and a click on it emits a setting that still
    names no key and only flips [ascending]. *)
Theorem null_key_column p colIndex c :
  columnSortKey c = VNull ->
  sortKey (props_sortSetting p) = VNull ->
  let th := headerCell p colIndex c in
  has_class "sort-table__cell--sortable" th = true
  /\ has_class "sort-table__cell--descending" th
     = negb (ascending (props_sortSetting p))
  /\ has_class "sort-table__cell--ascending" th
     = ascending (props_sortSetting p)
  /\ calls (activate p th)
     = [OnChangeSortSetting
          {| sortKey := VNull;
             ascending := negb (ascending (props_sortSetting p)) |}].
Proof.
  intros Hc Hcur th. subst th.
  rewrite header_sortable, header_descending, header_ascending, Hc, Hcur.
  repeat split.
  unfold activate, headerCell. cbn [attrs_of onClick]. rewrite Hc.
  cbn [isUndefined negb fire]. unfold clickSort. rewrite Hcur.
  destruct (ascending (props_sortSetting p)); reflexivity.
Qed.

(** X10.  A column whose [sortKey] is [NaN] is marked interactive but can
    never be shown as sorted: its header carries no direction marker under
    any sort setting, and every click on it emits the descending setting on
    [NaN] again, whatever the current setting is. *)
Theorem nan_key_column p colIndex c :
  columnSortKey c = VNumber NaN ->
  let th := headerCell p colIndex c in
  has_class "sort-table__cell--sortable" th = true
  /\ has_class "sort-table__cell--ascending" th = false
  /\ has_class "sort-table__cell--descending" th = false
  /\ calls (activate p th)
     = [OnChangeSortSetting {| sortKey := VNumber NaN; ascending := false |}]
  /\ calls (activate (click_and_feed (VNumber NaN) p) th)
     = [OnChangeSortSetting {| sortKey := VNumber NaN; ascending := false |}].
Proof.
  intros Hc th. subst th.
  rewrite header_sortable, header_descending, header_ascending, Hc.
  assert (Hclick : forall q : TableProps EmptyProps,
             calls (clickSort q (VNumber NaN))
             = [OnChangeSortSetting
                  {| sortKey := VNumber NaN; ascending := false |}]).
  { intros q. unfold clickSort.
    replace (strict_eq (sortKey (props_sortSetting q)) (VNumber NaN))
      with false; [reflexivity|].
    destruct (sortKey (props_sortSetting q)) as [| | |[|z]| |]; reflexivity. }
  assert (HNaN : forall v, strict_eq (VNumber NaN) v = false).
  { intros v. rewrite strict_eq_sym. destruct v as [| | |[|z]| |]; reflexivity. }
  rewrite HNaN. split; [reflexivity|]. split; [reflexivity|].
  split; [reflexivity|].
  unfold activate, headerCell. cbn [attrs_of onClick]. rewrite Hc.
  split; apply Hclick.
Qed.

End SortIndicator.

Section LoadingAndCount.

Context {EmptyProps : Type}.

Implicit Types (p : TableProps EmptyProps) (st : State).

Lemma loading_label_render st p :
  truthy (empty p) = false ->
  loading_label (result (render st p))
  = if truthy (loading p) && truthy_string (loadingLabel p)
    then [default "" (loadingLabel p)] else [].
Proof.
  intros Hempty. unfold render. rewrite Hempty. rewrite result_bind.
  destruct (truthy (loading p)), (number_strict_eq (count p) (Num 0)),
    (truthy_string (loadingLabel p)); reflexivity.
Qed.

(** X11.  The loading indicator is in the output exactly while [loading] is
    true, and its label exactly when [loadingLabel] is a non-empty string as
    well.  A loading table has an empty body and calls none of the caller's
    callbacks, whatever [count] and the columns are. *)
Theorem render_loading st p :
  truthy (empty p) = false ->
  shows_loading (result (render st p)) = truthy (loading p)
  /\ loading_label (result (render st p))
     = (if truthy (loading p) && truthy_string (loadingLabel p)
        then [default "" (loadingLabel p)] else [])
  /\ (truthy (loading p) = true ->
      body_rows (result (render st p)) = []
      /\ calls (render st p) = []).
Proof.
  intros Hempty. split; [apply shows_loading_render; assumption|].
  split; [apply loading_label_render; assumption|].
  intros Hloading.
  rewrite body_rows_render, calls_render by auto.
  rewrite Hloading. split; reflexivity.
Qed.

(** X12.  A count that is [NaN] or negative leaves the table blank: no body
    row, no callback called, and no "no results" placeholder either, since
    the placeholder asks for [count === 0]. *)
Theorem render_count_not_a_size st p :
  truthy (empty p) = false ->
  count p = NaN \/ (exists n : Z, count p = Num n /\ n < 0) ->
  body_rows (result (render st p)) = []
  /\ calls (render st p) = []
  /\ shows_no_results (result (render st p)) = false.
Proof.
  intros Hempty Hcount.
  assert (Hmax : truthy (loading p) = true
                 \/ toInteger (count p) <= MAX_ARRAY_LENGTH).
  { right. unfold MAX_ARRAY_LENGTH.
    destruct Hcount as [->|(n & -> & Hn)]; cbn [toInteger]; lia. }
  rewrite body_rows_render, calls_render, shows_no_results_render
    by assumption.
  destruct Hcount as [->|(n & -> & Hn)]; cbn [toInteger number_strict_eq].
  - destruct (truthy (loading p)); repeat split.
  - rewrite seqZ_nil by lia.
    destruct (truthy (loading p)); repeat split; apply Z.eqb_neq; lia.
Qed.

End LoadingAndCount.

Section RowClicks.

Context {EmptyProps : Type}.

Implicit Types (p : TableProps EmptyProps) (st : State).
Implicit Types (rowIndex : number) (cfg : ExpandableConfig EmptyProps).

(** X13.  What a click on a row can do.  The first row [renderRow]
    returns, the body row, always carries a click closure.  With an
    expandable configuration, activating it makes the single call
    [onChangeExpansion(i, !expanded)] for the expansion state read when the
    row was rendered; without one the closure calls nothing.  The rows that
    follow (spacer and expanded area) carry no closure and call nothing.  So
    no row click ever changes the sort setting, whatever the props are by
    then. *)
Theorem row_click_effect st p rowIndex (p' : TableProps EmptyProps) :
  exists body rest,
    result (renderRow st p rowIndex) = body :: rest
    /\ onClick (attrs_of body)
       = Some (RowClick (bool_decide (is_Some (expandableConfig p))) rowIndex
                 (match expandableConfig p with
                  | Some cfg => Some (rowIsExpanded cfg rowIndex)
                  | None => None
                  end))
    /\ calls (activate p' body)
       = match expandableConfig p with
         | Some cfg =>
             [OnChangeExpansion rowIndex (negb (rowIsExpanded cfg rowIndex))]
         | None => []
         end
    /\ Forall (fun row =>
                 onClick (attrs_of row) = None
                 /\ calls (activate p' row) = [])
              rest
    /\ length rest
       = match expandableConfig p with
         | Some cfg => if rowIsExpanded cfg rowIndex then 2%nat else 0%nat
         | None => 0%nat
         end.
Proof.
  unfold renderRow.
  destruct (expandableConfig p) as [cfg|];
    repeat first [ rewrite result_bind
                 | progress cbn [result invoke fst snd mret Eff_ret app] ].
  - destruct (rowIsExpanded cfg rowIndex);
      repeat first [ rewrite result_bind
                   | progress cbn [result invoke fst snd mret Eff_ret app] ];
      do 2 eexists; (split; [reflexivity|]);
      (split; [reflexivity|]); (split; [reflexivity|]);
      (split; [|reflexivity]); repeat constructor.
  - do 2 eexists. split; [reflexivity|]. split; [reflexivity|].
    split; [reflexivity|]. split; [|reflexivity]. constructor.
Qed.

End RowClicks.

(** ** The further properties on the sample tables *)

Lemma render_calls_witness :
  calls (render initialState Sample.people)
  = [RowClass (Num 0); Cell 0 (Num 0); Cell 1 (Num 0);
     RowClass (Num 1); Cell 0 (Num 1); Cell 1 (Num 1);
     RowClass (Num 2); Cell 0 (Num 2); Cell 1 (Num 2)].
Proof.
  rewrite (render_calls initialState Sample.people eq_refl);
    [reflexivity | unfold MAX_ARRAY_LENGTH; cbn; lia].
Defined.

Lemma render_cell_calls_witness :
  length (cell_calls (calls (render initialState Sample.people))) = 6%nat.
Proof.
  apply (render_cell_calls initialState Sample.people 3);
    [reflexivity | reflexivity | unfold MAX_ARRAY_LENGTH; lia | reflexivity].
Defined.

Lemma render_expanded_content_calls_witness :
  expanded_content_calls
    (calls (render initialState
              (Sample.set_expandable Sample.moreDetails Sample.people)))
  = [Num 1; Num 2].
Proof.
  rewrite (render_expanded_content_calls initialState
             (Sample.set_expandable Sample.moreDetails Sample.people) eq_refl);
    [reflexivity | unfold MAX_ARRAY_LENGTH; cbn; lia].
Defined.

Lemma render_body_row_count_witness :
  length (body_rows
            (result (render initialState
                       (Sample.set_expandable Sample.moreDetails Sample.people))))
  = 7%nat.
Proof.
  rewrite (render_body_row_count initialState
             (Sample.set_expandable Sample.moreDetails Sample.people) 3);
    [reflexivity | reflexivity | reflexivity | reflexivity
    | unfold MAX_ARRAY_LENGTH; lia].
Defined.

(** Row 2 of the sample, expanded: its body row and its spacer share key 2. *)
Lemma renderRow_keys_distinct_witness :
  keys_of (result (renderRow initialState
                     (Sample.set_expandable Sample.moreDetails Sample.people)
                     (Num 2)))
  = [Some (Num 2); Some (Num 2); Some (Num 3)]
  /\ NoDup (keys_of (result (renderRow initialState
                               (Sample.set_expandable Sample.moreDetails Sample.people)
                               (Num 1)))).
Proof.
  split.
  - apply (renderRow_keys_distinct initialState
             (Sample.set_expandable Sample.moreDetails Sample.people)
             Sample.moreDetails 2); reflexivity.
  - apply (renderRow_keys_distinct initialState
             (Sample.set_expandable Sample.moreDetails Sample.people)
             Sample.moreDetails 1); [reflexivity | reflexivity | lia].
Defined.

(** Row 1 of the expandable sample: body row, spacer and expanded area are
    3, 0 and 3 columns wide, the header 3. *)
Lemma render_rows_match_header_witness :
  length (header_cells (result (render initialState Sample.expandablePeople)))
  = 3%nat
  /\ map row_width
       (result (renderRow initialState Sample.expandablePeople (Num 1)))
     = [3%nat; 0%nat; 3%nat].
Proof.
  destruct (render_rows_match_header initialState Sample.expandablePeople eq_refl)
    as (_ & Hwidths & _).
  split; [reflexivity|].
  rewrite (Hwidths (Num 1)). reflexivity.
Defined.

Lemma header_sort_marker_witness :
  has_class "sort-table__cell--ascending"
    (headerCell
       (with_sortSetting Sample.people
          {| sortKey := VString "age"; ascending := true |})
       1 Sample.ageColumn) = true.
Proof.
  rewrite (proj1 (header_sort_marker
                    (with_sortSetting Sample.people
                       {| sortKey := VString "age"; ascending := true |})
                    1 Sample.ageColumn)).
  reflexivity.
Defined.

Lemma click_then_header_marker_witness :
  has_class "sort-table__cell--descending"
    (headerCell (click_and_feed (VString "age") Sample.people)
       1 Sample.ageColumn) = true.
Proof.
  destruct (click_then_header_marker Sample.people (VString "age") 1
              Sample.ageColumn eq_refl eq_refl eq_refl eq_refl)
    as [[_ Hdesc] _].
  exact Hdesc.
Defined.

(** An unsorted table with a [null]-keyed column shows it as sorted
    descending. *)
Lemma null_key_column_witness :
  has_class "sort-table__cell--descending"
    (headerCell Sample.people 0 Sample.nullColumn) = true.
Proof.
  apply (null_key_column Sample.people 0 Sample.nullColumn); reflexivity.
Defined.

Lemma nan_key_column_witness :
  calls (activate
           (with_sortSetting Sample.people
              {| sortKey := VNumber NaN; ascending := false |})
           (headerCell
              (with_sortSetting Sample.people
                 {| sortKey := VNumber NaN; ascending := false |})
              0 Sample.nanColumn))
  = [OnChangeSortSetting {| sortKey := VNumber NaN; ascending := false |}].
Proof.
  apply (nan_key_column
           (with_sortSetting Sample.people
              {| sortKey := VNumber NaN; ascending := false |})
           0 Sample.nanColumn).
  reflexivity.
Defined.

Lemma render_loading_witness :
  loading_label
    (result (render initialState (Sample.set_loading true Sample.people)))
  = ["Loading people"]
  /\ calls (render initialState (Sample.set_loading true Sample.people)) = [].
Proof.
  destruct (render_loading initialState (Sample.set_loading true Sample.people))
    as (_ & Hlabel & Hquiet); [reflexivity|].
  split; [rewrite Hlabel; reflexivity|].
  apply Hquiet. reflexivity.
Defined.

Lemma render_count_not_a_size_witness :
  shows_no_results
    (result (render initialState (Sample.set_count NaN Sample.people))) = false.
Proof.
  apply (render_count_not_a_size initialState
           (Sample.set_count NaN Sample.people));
    [reflexivity | left; reflexivity].
Defined.

(** Clicking the expanded row 1 of the sample asks to collapse it; its
    spacer and expanded area do not react. *)
Lemma row_click_effect_witness :
  exists body rest,
    result (renderRow initialState Sample.expandablePeople (Num 1))
    = body :: rest
    /\ calls (activate Sample.expandablePeople body)
       = [OnChangeExpansion (Num 1) false]
    /\ Forall (fun row => calls (activate Sample.expandablePeople row) = []) rest
    /\ length rest = 2%nat.
Proof.
  destruct (row_click_effect initialState Sample.expandablePeople (Num 1)
              Sample.expandablePeople)
    as (body & rest & Hrows & _ & Hclick & Hrest & Hlength).
  exists body, rest. split; [exact Hrows|]. split; [exact Hclick|].
  split; [|exact Hlength].
  apply (Forall_impl _ _ _ Hrest). intros row [_ Hquiet]. exact Hquiet.
Defined.
